(** * generate_nav.py: navigation generator for the AsciiDoc sources

    A shallow embedding of [src/generate_nav.py] and the properties of it
    that the specification states.

    Conventions of the embedding.
    - A Python [str] is a list of characters; a character is a code point
      in the range 0..255 (Latin-1), carried by [ascii].  The character
      classes ([str.isspace], the [\s] and [\w] classes of [re],
      [str.lower], the line boundaries of [str.splitlines]) are the ones
      Python 3 uses on that range.
    - Python integers are [Z].
    - A resolved [pathlib.Path] is the list of its components below the
      root; paths are POSIX paths and there are no symbolic links.
    - The file system is a finite map from resolved paths to the text of
      the file.  An entry that exists but cannot be read (a directory, a
      file that is not UTF-8) is an entry with empty text: for both,
      [read_text_lines] returns the empty list.  Writes succeed.
    - [print] output is not modelled. *)

From stdpp Require Import gmap strings list fin_maps.
From Stdlib Require Import Ascii String ZArith Lia.

Open Scope string_scope.
Open Scope list_scope.
Open Scope stdpp_scope.

Abbreviation str := (list ascii).

(** String literals are read as [str]. *)
Coercion list_ascii_of_string : string >-> list.

(** ** Characters *)

Module Char.

Definition code (c : ascii) : N := N_of_ascii c.

Definition between (lo hi : N) (c : ascii) : bool :=
  ((lo <=? code c) && (code c <=? hi))%N.

(** [str.isspace], which is also [\s] and what [str.strip()] removes:
    TAB LF VT FF CR, FS GS RS US, SPACE, NEL (0x85) and NBSP (0xA0). *)
Definition is_space (c : ascii) : bool :=
  between 9 13 c || between 28 32 c || between 133 133 c || between 160 160 c.

(** [\w]: alphanumeric code points and the underscore. *)
Definition is_word (c : ascii) : bool :=
  between 48 57 c || between 65 90 c || between 95 95 c || between 97 122 c
  || between 170 170 c || between 178 179 c || between 181 181 c
  || between 185 186 c || between 188 190 c
  || between 192 214 c || between 216 246 c || between 248 255 c.

(** [str.lower] on one character: A-Z and the Latin-1 capitals
    0xC0..0xDE (without the multiplication sign 0xD7) move up by 32. *)
Definition lower (c : ascii) : ascii :=
  if between 65 90 c || between 192 214 c || between 216 222 c
  then ascii_of_N (code c + 32) else c.

(** Line boundaries of [str.splitlines]: LF VT FF CR FS GS RS NEL. *)
Definition is_linebreak (c : ascii) : bool :=
  between 10 13 c || between 28 30 c || between 133 133 c.

Definition eqb (a b : ascii) : bool := Ascii.eqb a b.

Definition hyphen : ascii := "-"%char.
Definition is_hyphen (c : ascii) : bool := eqb c hyphen.

End Char.

(** ** Python string operations *)

Module Py.

Fixpoint drop_while (p : ascii -> bool) (s : str) : str :=
  match s with
  | [] => []
  | c :: s' => if p c then drop_while p s' else s
  end.

Definition lstrip_with (p : ascii -> bool) (s : str) : str := drop_while p s.
Definition rstrip_with (p : ascii -> bool) (s : str) : str :=
  rev (drop_while p (rev s)).
Definition strip_with (p : ascii -> bool) (s : str) : str :=
  rstrip_with p (lstrip_with p s).

Definition one_of (chars : str) (c : ascii) : bool := existsb (Char.eqb c) chars.

(** [s.strip()] *)
Definition strip (s : str) : str := strip_with Char.is_space s.
(** [s.strip(chars)] and [s.lstrip(chars)] *)
Definition strip_chars (chars s : str) : str := strip_with (one_of chars) s.
Definition lstrip_chars (chars s : str) : str := lstrip_with (one_of chars) s.

(** [s.lower()] *)
Definition lower (s : str) : str := map Char.lower s.

Definition str_eqb (a b : str) : bool := bool_decide (a = b).

(** [s.startswith(p)] and [s.endswith(p)] *)
Fixpoint startswith (p s : str) : bool :=
  match p, s with
  | [], _ => true
  | a :: p', b :: s' => Char.eqb a b && startswith p' s'
  | _ :: _, [] => false
  end.
Definition endswith (p s : str) : bool := startswith (rev p) (rev s).

(** [s[a:-b]] for non-negative literals [a] and [b] *)
Definition slice (a b : nat) (s : str) : str := drop a (take (List.length s - b) s).

(** Truth value of a string: [not s] is [is_empty s]. *)
Definition is_empty (s : str) : bool := match s with [] => true | _ => false end.

(** [c * n] for a one-character string [c] *)
Definition times (c : ascii) (n : Z) : str := replicate (Z.to_nat n) c.

(** [sep.join(parts)] *)
Fixpoint join (sep : str) (parts : list str) : str :=
  match parts with
  | [] => []
  | [p] => p
  | p :: ps => p ++ sep ++ join sep ps
  end.

(** [s.split(sep)] for a one-character separator: the pieces between
    the separators, the empty ones too. *)
Fixpoint split_on (sep : ascii) (s : str) : list str :=
  match s with
  | [] => [[]]
  | c :: s' =>
      if Char.eqb c sep then [] :: split_on sep s'
      else match split_on sep s' with
           | [] => [[c]]
           | w :: ws => (c :: w) :: ws
           end
  end.

(** [s.splitlines()]: [cur] is the line being read, reversed; CR LF
    is one boundary; no empty last line after a final boundary. *)
Fixpoint splitlines_from (cur : str) (s : str) : list str :=
  match s with
  | [] => match cur with [] => [] | _ => [rev cur] end
  | c :: s' =>
      if Char.is_linebreak c then
        match c, s' with
        | "013"%char, "010"%char :: s'' => rev cur :: splitlines_from [] s''
        | _, _ => rev cur :: splitlines_from [] s'
        end
      else splitlines_from (c :: cur) s'
  end.
Definition splitlines (s : str) : list str := splitlines_from [] s.

(** The effect of [re.sub] with a pattern [p+] (one character class,
    greedy) and a one-character replacement: every maximal run of
    characters of the class becomes one [r].  [in_run] tells that the
    character before was of the class. *)
Fixpoint squeeze (p : ascii -> bool) (r : ascii) (in_run : bool) (s : str) : str :=
  match s with
  | [] => []
  | c :: s' =>
      if p c then (if in_run then squeeze p r true s' else r :: squeeze p r true s')
      else c :: squeeze p r false s'
  end.

End Py.

(** ** Anchors derived from titles *)

(** [re.sub] with the pattern [[^\w\s-]] and the empty replacement keeps
    the characters of the class. *)
Definition keep_word_space_hyphen (c : ascii) : bool :=
  Char.is_word c || Char.is_space c || Char.is_hyphen c.

(** [-{2,}] replaced by one hyphen leaves the runs of length one as they
    are, so every maximal run of hyphens becomes one hyphen. *)
Definition make_anchor_from_title (title : str) : str :=
  let s := Py.lower (Py.strip title) in
  let s := List.filter keep_word_space_hyphen s in
  let s := Py.squeeze Char.is_space Char.hyphen false s in
  let s := Py.squeeze Char.is_hyphen Char.hyphen false s in
  Py.strip_chars "-" s.

(** ** Paths *)

Abbreviation path := (list str).

Module Path.

Definition dot : str := ".".
Definition dotdot : str := "..".
Definition slash : ascii := "/"%char.

(** The components [pathlib] keeps when it parses a string: the pieces
    between the slashes, without the empty ones and without ["."]. *)
Definition parts (s : str) : list str :=
  List.filter (fun c => negb (Py.is_empty c) && negb (Py.str_eqb c dot))
              (Py.split_on slash s).

Definition is_absolute (s : str) : bool := Py.startswith "/" s.

(** [base / s]: an absolute [s] replaces [base]. *)
Definition joinpath (base : path) (s : str) : path :=
  if is_absolute s then parts s else base ++ parts s.

(** [p.parent]; the parent of the root is the root. *)
Definition parent (p : path) : path := removelast p.

(** [Path(s).name]: the last component, the empty string when there is
    none. *)
Definition name (s : str) : str := List.last (parts s) [].

(** [p.resolve()] without symbolic links, which is also what
    [os.path.normpath] does to an absolute path: [".."] drops the
    component before it and is dropped at the root. *)
Definition resolve_step (acc : path) (c : str) : path :=
  if Py.str_eqb c dotdot then removelast acc else acc ++ [c].
Definition resolve (p : path) : path := fold_left resolve_step p [].

Fixpoint is_prefix (a p : path) : bool :=
  match a, p with
  | [], _ => true
  | x :: a', y :: p' => Py.str_eqb x y && is_prefix a' p'
  | _ :: _, [] => false
  end.

(** [a in p.parents]: [a] is a proper ancestor of [p]. *)
Definition in_parents (a p : path) : bool :=
  is_prefix a p && negb (bool_decide (a = p)).

(** [p.relative_to(base)]: [None] stands for the [ValueError]. *)
Definition relative_to (p base : path) : option path :=
  if is_prefix base p then Some (drop (List.length base) p) else None.

(** [str(p)] for a relative path, and for an absolute one. *)
Definition to_str (rel : path) : str :=
  match rel with [] => dot | _ => Py.join "/" rel end.
Definition abs_str (p : path) : str := slash :: Py.join "/" p.

Fixpoint common_prefix (a b : path) : path :=
  match a, b with
  | x :: a', y :: b' => if Py.str_eqb x y then x :: common_prefix a' b' else []
  | _, _ => []
  end.

(** [os.path.relpath(p, start)] for absolute [p] and [start]. *)
Definition relpath (p start : path) : str :=
  let start_list := resolve start in
  let path_list := resolve p in
  let i := List.length (common_prefix start_list path_list) in
  let rel_list := replicate (List.length start_list - i) dotdot ++ drop i path_list in
  match rel_list with
  | [] => dot
  | _ => Py.join "/" rel_list
  end.

End Path.

(** ** Line patterns *)

Definition nl : str := ["010"%char].

(** The lines that both scanners pass over: empty lines, comments,
    attribute lines and include lines. *)
Definition skippable (line : str) : bool :=
  Py.is_empty line || Py.startswith "//" line || Py.startswith ":" line
  || Py.startswith "include::" line.

(** [line.startswith("[[") and line.endswith("]]")] *)
Definition is_anchor_line (line : str) : bool :=
  Py.startswith "[[" line && Py.endswith "]]" line.

(** [line[2:-2].strip()] *)
Definition anchor_of_line (line : str) : str := Py.strip (Py.slice 2 2 line).

Fixpoint take_while (p : ascii -> bool) (s : str) : str :=
  match s with
  | [] => []
  | c :: s' => if p c then c :: take_while p s' else []
  end.

Definition is_equals (c : ascii) : bool := Char.eqb c "="%char.
Definition is_newline (c : ascii) : bool := Char.eqb c "010"%char.

(** [re.match(r"^(=+)\s+(.+)$", line)] for a line that went through
    [strip()], as it has at every call: the result is
    [(len(m.group(1)), m.group(2))].  Group 1 is the whole run of [=]
    and [\s+] the whole run of white space after it, since neither can
    give a character back to what follows in a stripped line; [.] does
    not match a line feed. *)
Definition match_heading (line : str) : option (Z * str) :=
  let marks := take_while is_equals line in
  let after_marks := Py.drop_while is_equals line in
  let rest := Py.drop_while Char.is_space after_marks in
  if Py.is_empty marks then None
  else if bool_decide (rest = after_marks) then None
  else if Py.is_empty rest then None
  else if existsb is_newline rest then None
  else Some (Z.of_nat (List.length marks), rest).

(** [re.match(r"^===\s+", line)] *)
Definition match_level3_prefix (line : str) : bool :=
  Py.startswith "===" line &&
  match drop 3 line with
  | c :: _ => Char.is_space c
  | [] => false
  end.

Definition is_bracket (c : ascii) : bool :=
  Char.eqb c "["%char || Char.eqb c "]"%char.

(** [include::([^[\]]+)\[\]] tried at the start of [s]: group 1 is the
    longest run without brackets, and it has to be followed by [[]]. *)
Definition match_include_here (s : str) : option str :=
  if Py.startswith "include::" s then
    let after := drop 9 s in
    let group1 := take_while (fun c => negb (is_bracket c)) after in
    let rest := Py.drop_while (fun c => negb (is_bracket c)) after in
    if negb (Py.is_empty group1) && Py.startswith "[]" rest then Some group1 else None
  else None.

(** [pattern.search(line)]: the leftmost position with a match. *)
Fixpoint search_include (s : str) : option str :=
  match match_include_here s with
  | Some g => Some g
  | None => match s with
            | [] => None
            | _ :: s' => search_include s'
            end
  end.

(** ** Configuration *)

Definition MASTER_FILES : list str :=
  [ "usersguide/usersguide.adoc" : str;
    "installguide/installguide.adoc" : str;
    "referenceguide/referenceguide.adoc" : str ].

Definition MAX_NAV_DEPTH : Z := 4.
Definition ALLOWED_SECTION_LEVELS : list Z := [3%Z].

Definition IGNORE_TITLES : list str :=
  [ "description" : str; "options" : str; "example" : str; "examples" : str;
    "notes" : str; "see also" : str ].

Definition reference_rules : gmap str str :=
  <[ ("perfdmf/book.adoc" : str) := ("referenceguide/taudb-alias.adoc" : str) ]>
  (<[ ("newguide/introduction.adoc" : str) := ("referenceguide/installation-alias.adoc" : str) ]> ∅).

Definition ALIAS_MAP : gmap str (gmap str str) :=
  <[ ("referenceguide.adoc" : str) := reference_rules ]>
  (<[ ("referenceguide/referenceguide.adoc" : str) := reference_rules ]> ∅).

(** ** The generator

    [CWD] is [Path.cwd()], the components of the directory the script
    runs in. *)

Section Generator.

Variable CWD : path.

Definition SRC_DIR : path := Path.joinpath CWD "src".
Definition MODULE_ROOT : path := Path.joinpath SRC_DIR "modules/ROOT".
Definition PAGES_DIR : path := Path.joinpath MODULE_ROOT "pages".
Definition PARTIALS_DIR : path := Path.joinpath MODULE_ROOT "partials".
Definition DEST_NAV_FILE : path := Path.joinpath MODULE_ROOT "nav.adoc".

(** *** Reading *)

Definition exists_file (fs : gmap path str) (p : path) : bool :=
  bool_decide (is_Some (fs !! p)).

(** [p.read_text(encoding="utf-8").splitlines()], [[]] when the file
    cannot be read. *)
Definition read_text_lines (fs : gmap path str) (p : path) : list str :=
  match fs !! p with
  | Some text => Py.splitlines text
  | None => []
  end.

(** One iteration of the loop of [extract_include_files]: what the line
    adds to [includes]. *)
Definition include_of_line (fs : gmap path str) (file_path : path) (line : str)
  : list path :=
  match search_include line with
  | None => []
  | Some group1 =>
      let include_rel_path := Py.strip group1 in
      let inc := Path.resolve (Path.joinpath (Path.parent file_path) include_rel_path) in
      if Path.in_parents PARTIALS_DIR inc then []
      else if negb (exists_file fs inc) then []
      else [inc]
  end.

Definition extract_include_files (fs : gmap path str) (file_path : path) : list path :=
  flat_map (include_of_line fs file_path) (read_text_lines fs file_path).

(** *** Titles and anchors *)

Definition UNTITLED : str := "Untitled".

(** [line.startswith("= ") and not line.startswith("== ")] *)
Definition is_doc_title_line (line : str) : bool :=
  Py.startswith "= " line && negb (Py.startswith "== " line).

(** [line.lstrip("= ").strip()] *)
Definition doc_title_of (line : str) : str := Py.strip (Py.lstrip_chars "= " line).

(** [if not anchor: anchor = make_anchor_from_title(title)] *)
Definition anchor_or_slug (anchor title : str) : str :=
  if Py.is_empty anchor then make_anchor_from_title title else anchor.

(** The inner [while] loop of [get_title_and_anchor], which follows an
    anchor line and looks at the lines from index [i] on.  It returns
    from the function, or leaves by [break] at a line that is not
    skippable: [resume] is the outer loop going on at that line.  When
    the lines end, the outer loop ends too. *)
Definition find_next_heading (resume : list str -> str * str)
  (prefer_doc_title : bool) (anchor : str) : list str -> str * str :=
  fix inner (ls : list str) : str * str :=
    match ls with
    | [] => (UNTITLED, anchor)
    | p :: ls' =>
        let peek := Py.strip p in
        if skippable peek then inner ls'
        else if prefer_doc_title && is_doc_title_line peek then
          (doc_title_of peek, anchor)
        else
          match match_heading peek with
          | Some (level, group2) =>
              if prefer_doc_title then
                if (level =? 1)%Z then (Py.strip group2, anchor)
                else resume ls
              else if (2 <=? level)%Z then
                (Py.strip group2, anchor_or_slug anchor (Py.strip group2))
              else resume ls
          | None => resume ls
          end
    end.

(** The outer [while] loop of [get_title_and_anchor] on the lines from
    index [i] on, with the current value of [anchor]. *)
Fixpoint scan_title (prefer_doc_title : bool) (anchor : str) (lines : list str)
  {struct lines} : str * str :=
  match lines with
  | [] => (UNTITLED, anchor)
  | l :: rest =>
      let line := Py.strip l in
      if skippable line then scan_title prefer_doc_title anchor rest
      else if is_anchor_line line then
        let anchor := anchor_of_line line in
        find_next_heading (fun ls => scan_title prefer_doc_title anchor ls)
                          prefer_doc_title anchor rest
      else if prefer_doc_title then
        if is_doc_title_line line then
          (doc_title_of line, anchor_or_slug anchor (doc_title_of line))
        else scan_title prefer_doc_title anchor rest
      else
        match match_heading line with
        | Some (level, group2) =>
            if (2 <=? level)%Z then
              (Py.strip group2, anchor_or_slug anchor (Py.strip group2))
            else scan_title prefer_doc_title anchor rest
        | None => scan_title prefer_doc_title anchor rest
        end
  end.

Definition title_and_anchor_of_lines (lines : list str) (prefer_doc_title : bool)
  : str * str :=
  match lines with
  | [] => (UNTITLED, [])
  | _ => scan_title prefer_doc_title [] lines
  end.

Definition get_title_and_anchor (fs : gmap path str) (file_path : path)
  (prefer_doc_title : bool) : str * str :=
  title_and_anchor_of_lines (read_text_lines fs file_path) prefer_doc_title.

(** *** Section headings *)

(** [last_anchor or make_anchor_from_title(title)] *)
Definition last_anchor_or_slug (last_anchor : option str) (title : str) : str :=
  match last_anchor with
  | Some a => if Py.is_empty a then make_anchor_from_title title else a
  | None => make_anchor_from_title title
  end.

(** The loop of [extract_section_headings]: the triples
    [(level, anchor, title)] appended to [results], in order. *)
Fixpoint scan_sections (last_anchor : option str) (lines : list str)
  : list (Z * str * str) :=
  match lines with
  | [] => []
  | l :: rest =>
      let line := Py.strip l in
      if is_anchor_line line then scan_sections (Some (anchor_of_line line)) rest
      else if skippable line then scan_sections last_anchor rest
      else
        match match_heading line with
        | Some (level, group2) =>
            let title := Py.strip group2 in
            if negb (Py.is_empty title)
               && negb (bool_decide (Py.lower title ∈ IGNORE_TITLES))
               && bool_decide (level ∈ ALLOWED_SECTION_LEVELS)
            then (level, last_anchor_or_slug last_anchor title, title)
                   :: scan_sections None rest
            else scan_sections None rest
        | None => scan_sections None rest
        end
  end.

Definition extract_section_headings (fs : gmap path str) (file_path : path)
  : list (Z * str * str) :=
  scan_sections None (read_text_lines fs file_path).

Definition is_aggregator_page (fs : gmap path str) (file_path : path) : bool :=
  match extract_include_files fs file_path with
  | [] => false
  | _ => forallb (fun line => negb (match_level3_prefix (Py.strip line)))
                 (read_text_lines fs file_path)
  end.

(** *** Aliases *)

(** The loop of [resolve_alias] over the keys to try, for a rule table
    [table]. *)
Fixpoint resolve_alias_keys (table : gmap str (gmap str str)) (keys : list str)
  (xref_path_str : str) : str * option str :=
  match keys with
  | [] => (xref_path_str, None)
  | key :: keys' =>
      match table !! key with
      | Some rules =>
          match rules !! xref_path_str with
          | Some alias => (alias, Some alias)
          | None => resolve_alias_keys table keys' xref_path_str
          end
      | None => resolve_alias_keys table keys' xref_path_str
      end
  end.

Definition resolve_alias_in (table : gmap str (gmap str str))
  (master_key xref_path_str : str) : str * option str :=
  let basename_key := Path.name master_key in
  resolve_alias_keys table [master_key; basename_key] xref_path_str.

Definition resolve_alias (master_key xref_path_str : str) : str * option str :=
  resolve_alias_in ALIAS_MAP master_key xref_path_str.

Definition alias_content (alias_page_path_str target_page_path_str : str) : str :=
  let alias_abs_path := Path.joinpath PAGES_DIR alias_page_path_str in
  let target_abs_path := Path.joinpath PAGES_DIR target_page_path_str in
  let relative_include_path := Path.relpath target_abs_path (Path.parent alias_abs_path) in
  ":page-alias: " ++ target_page_path_str ++ nl
  ++ "include::" ++ relative_include_path ++ "[]" ++ nl.

(** [create_alias_file]: the file system after [write_text].  The
    directories made by [mkdir] are not entries of the map. *)
Definition create_alias_file (alias_page_path_str target_page_path_str : str)
  (fs : gmap path str) : gmap path str :=
  <[ Path.joinpath PAGES_DIR alias_page_path_str
     := alias_content alias_page_path_str target_page_path_str ]> fs.

(** *** Navigation entries *)

(** What one call of [add_entry] puts on a line: the nesting depth is
    the number of [*] written. *)
Record NavEntry := mkNavEntry {
  depth : Z;
  target : str;
  anchor : str;
  title : str
}.

(** The line of an entry:
    [indent xref:target#anchor[title]], or without [#anchor]. *)
Definition render (e : NavEntry) : str :=
  if Py.is_empty (anchor e)
  then Py.times "*" (depth e) ++ " xref:" ++ target e ++ "[" ++ title e ++ "]"
  else Py.times "*" (depth e) ++ " xref:" ++ target e ++ "#" ++ anchor e
       ++ "[" ++ title e ++ "]".

(** [max(1, min(level, MAX_NAV_DEPTH))] *)
Definition clamp_level (level : Z) : Z := Z.max 1 (Z.min level MAX_NAV_DEPTH).

Definition entry_of (level : Z) (xref_target title anchor : str) : NavEntry :=
  mkNavEntry (clamp_level level) xref_target anchor title.

Definition add_entry (nav_lines : list str) (level : Z)
  (xref_target title anchor : str) : list str :=
  nav_lines ++ [render (entry_of level xref_target title anchor)].

(** [not title or title.lower() == "untitled"] *)
Definition problematic_title (title : str) : bool :=
  Py.is_empty title || Py.str_eqb (Py.lower title) "untitled".

(** One iteration of the loop of
    [process_aggregator_children_as_alias_sections]. *)
Definition alias_child_step (fs : gmap path str) (alias_xref_target : str)
  (current_level : Z) (nav_lines : list str) (inc : path) : list str :=
  let '(inc_title, inc_anchor) := get_title_and_anchor fs inc false in
  if problematic_title inc_title then nav_lines
  else add_entry nav_lines (Z.min (current_level + 1) MAX_NAV_DEPTH)
                 alias_xref_target inc_title inc_anchor.

Definition process_aggregator_children_as_alias_sections (fs : gmap path str)
  (aggregator_file : path) (alias_xref_target : str) (current_level : Z)
  (nav_lines : list str) : list str :=
  fold_left (alias_child_step fs alias_xref_target current_level)
            (extract_include_files fs aggregator_file) nav_lines.

(** One iteration of the loop over [sections] in [process_page]. *)
Definition section_step (final_xref_path title anchor : str) (current_level : Z)
  (nav_lines : list str) (section : Z * str * str) : list str :=
  let '(level, sub_anchor, sub_title) := section in
  if Py.str_eqb sub_anchor anchor
     || Py.str_eqb (Py.lower (Py.strip sub_title)) (Py.lower (Py.strip title))
  then nav_lines
  else
    let sub_nav_level := (current_level + (level - 2))%Z in
    if (sub_nav_level <=? MAX_NAV_DEPTH)%Z
    then add_entry nav_lines sub_nav_level final_xref_path sub_title sub_anchor
    else nav_lines.

(** *** The traversal *)

(** The objects the traversal mutates: the list [nav_lines], the set
    [visited], and the file system, which [create_alias_file] writes to.
    [str(inc)] is one-to-one on resolved paths, so a key of [visited]
    carries the path itself.  [calls] is a ghost field, read by no
    function of the program: the arguments
    [(file_path, master_key)] of every call of [process_page] so far. *)
Record state := mkState {
  nav_lines : list str;
  visited : gset (path * str);
  files : gmap path str;
  calls : list (path * str)
}.

Definition set_nav (f : list str -> list str) (st : state) : state :=
  mkState (f (nav_lines st)) (visited st) (files st) (calls st).
Definition set_files (f : gmap path str -> gmap path str) (st : state) : state :=
  mkState (nav_lines st) (visited st) (f (files st)) (calls st).
Definition add_visited (key : path * str) (st : state) : state :=
  mkState (nav_lines st) ({[ key ]} ∪ visited st) (files st) (calls st).
Definition log_call (key : path * str) (st : state) : state :=
  mkState (nav_lines st) (visited st) (files st) (calls st ++ [key]).

(** [if alias_applied: create_alias_file(alias_created, xref_path_str)] *)
Definition apply_alias (alias_created : option str) (xref_path_str : str)
  (st : state) : state :=
  match alias_created with
  | Some alias => set_files (create_alias_file alias xref_path_str) st
  | None => st
  end.

(** A [for] loop whose body may run out of fuel. *)
Fixpoint for_each {A : Type} (body : A -> state -> option state) (l : list A)
  (st : state) : option state :=
  match l with
  | [] => Some st
  | x :: l' =>
      match body x st with
      | Some st' => for_each body l' st'
      | None => None
      end
  end.

(** The guard in front of every call of [process_page]:
    [if key in visited: continue], else [visited.add(key)] and the call
    [recurse]. *)
Definition visit_once (recurse : path -> state -> option state) (master_key : str)
  (inc : path) (st : state) : option state :=
  let key := (inc, master_key) in
  if bool_decide (key ∈ visited st) then Some st
  else recurse inc (add_visited key st).

(** [process_page].  The recursion is not structural; [fuel] bounds the
    depth of the nested calls and [None] means that it ran out. *)
Fixpoint process_page (fuel : nat) (file_path : path) (master_key : str)
  (current_level : Z) (st : state) : option state :=
  match fuel with
  | O => None
  | S fuel' =>
      let st := log_call (file_path, master_key) st in
      match Path.relative_to file_path PAGES_DIR with
      | None => Some st
      | Some xref_path =>
          let xref_path_str := Path.to_str xref_path in
          let '(final_xref_path, alias_created) :=
            resolve_alias master_key xref_path_str in
          let alias_applied := bool_decide (is_Some alias_created) in
          let st := apply_alias alias_created xref_path_str st in
          let '(title, anchor) := get_title_and_anchor (files st) file_path false in
          if problematic_title title then Some st
          else
            let st := set_nav (fun nav =>
                        add_entry nav current_level final_xref_path title anchor) st in
            if is_aggregator_page (files st) file_path && alias_applied then
              Some (set_nav (process_aggregator_children_as_alias_sections
                               (files st) file_path final_xref_path current_level) st)
            else
              let sections := extract_section_headings (files st) file_path in
              let st := set_nav (fun nav =>
                          fold_left (section_step final_xref_path title anchor
                                                  current_level) sections nav) st in
              if is_aggregator_page (files st) file_path then
                for_each
                  (visit_once
                     (fun inc st' =>
                        process_page fuel' inc master_key
                                     (Z.min (current_level + 1) MAX_NAV_DEPTH) st')
                     master_key)
                  (extract_include_files (files st) file_path) st
              else Some st
      end
  end.

(** *** The main loop *)

(** The line [main] writes for a book. *)
Definition book_line (xref_path book_title book_anchor : str) : str :=
  if Py.is_empty book_anchor
  then "* xref:" ++ xref_path ++ "[" ++ book_title ++ "]"
  else "* xref:" ++ xref_path ++ "#" ++ book_anchor ++ "[" ++ book_title ++ "]".

(** [MASTER_FILES[-1]] *)
Definition last_master : str := List.last MASTER_FILES [].

(** The body of the loop of [main] for one master.
    [master_path.relative_to(PAGES_DIR)] is the relative path the master
    was built from. *)
Definition process_master (fuel : nat) (master_file_rel_path : str) (st : state)
  : option state :=
  let master_path := Path.joinpath PAGES_DIR master_file_rel_path in
  if negb (exists_file (files st) master_path) then Some st
  else
    let '(book_title, book_anchor) := get_title_and_anchor (files st) master_path true in
    let xref_path := Path.to_str (Path.parts master_file_rel_path) in
    let st := set_nav (fun nav => nav ++ [book_line xref_path book_title book_anchor]) st in
    let includes := extract_include_files (files st) master_path in
    let master_key := Path.to_str (Path.parts master_file_rel_path) in
    match for_each (visit_once (fun inc st' => process_page fuel inc master_key 2 st')
                               master_key) includes st with
    | None => None
    | Some st =>
        if negb (Py.str_eqb master_file_rel_path last_master)
        then Some (set_nav (fun nav => nav ++ [[]]) st)
        else Some st
    end.

Definition header : list str :=
  [ "// WARNING: This file is generated. DO NOT EDIT DIRECTLY." : str; [] ].

Definition final_content (nav : list str) : str :=
  Py.join nl (header ++ nav) ++ nl.

(** [main]: the state when the program ends, the navigation file
    written. *)
Definition main (fuel : nat) (fs : gmap path str) : option state :=
  match for_each (process_master fuel) MASTER_FILES (mkState [] ∅ fs []) with
  | None => None
  | Some st =>
      Some (set_files (fun fs' => <[ DEST_NAV_FILE := final_content (nav_lines st) ]> fs') st)
  end.

(** * Vocabulary of the properties *)

(** The first character of [s], if there is one, is not in the class. *)
Definition head_outside (p : ascii -> bool) (s : str) : Prop :=
  match s with
  | [] => True
  | c :: _ => p c = false
  end.

(** No two neighbours of [s] are both in the class; with [prev] set, the
    first character is not in it either. *)
Fixpoint squeezed (p : ascii -> bool) (prev : bool) (s : str) : Prop :=
  match s with
  | [] => True
  | c :: s' => if p c then prev = false /\ squeezed p true s' else squeezed p false s'
  end.

(** The characters an anchor derived from a title is made of: word
    characters that [lower] leaves as they are, and hyphens. *)
Definition slug_char (c : ascii) : Prop :=
  (Char.is_word c = true \/ Char.is_hyphen c = true) /\ Char.lower c = c.

(** The shape of a derived anchor: slug characters only, no two hyphens
    in a row, no hyphen at either end. *)
Definition slugged (s : str) : Prop :=
  Forall slug_char s /\ squeezed Char.is_hyphen false s
  /\ head_outside Char.is_hyphen s /\ head_outside Char.is_hyphen (rev s).

(** The target of the rule that [table] has under [key] for the content
    path [xref_path_str], if there is one. *)
Definition rule_of (table : gmap str (gmap str str)) (key xref_path_str : str)
  : option str :=
  match table !! key with
  | Some rules => rules !! xref_path_str
  | None => None
  end.

Definition book_path : str := "perfdmf/book.adoc".

Definition book_alias : str := "referenceguide/taudb-alias.adoc".

Definition intro_path : str := "newguide/introduction.adoc".

Definition intro_alias : str := "referenceguide/installation-alias.adoc".

(** A component that [resolve] keeps as it is. *)
Definition plain (c : str) : Prop := c <> Path.dotdot.

(** The place of the stub that an alias rule makes. *)
Definition stub_path (alias : str) : path :=
  Path.joinpath PAGES_DIR alias.

(** Page-title mode as one pass over the lines: [anchor] is the id of
    the last anchor line so far. *)
Fixpoint page_scan (anchor : str) (lines : list str) : str * str :=
  match lines with
  | [] => (UNTITLED, anchor)
  | l :: rest =>
      let line := Py.strip l in
      if skippable line then page_scan anchor rest
      else if is_anchor_line line then page_scan (anchor_of_line line) rest
      else
        match match_heading line with
        | Some (level, group2) =>
            if (2 <=? level)%Z
            then (Py.strip group2, anchor_or_slug anchor (Py.strip group2))
            else page_scan anchor rest
        | None => page_scan anchor rest
        end
  end.

(** The id of the last anchor line of [lines], [anchor] when there is
    none. *)
Fixpoint last_marker (anchor : str) (lines : list str) : str :=
  match lines with
  | [] => anchor
  | l :: rest =>
      if is_anchor_line (Py.strip l)
      then last_marker (anchor_of_line (Py.strip l)) rest
      else last_marker anchor rest
  end.

(** The line is no heading of any level. *)
Definition no_heading (l : str) : Prop := match_heading (Py.strip l) = None.

(** The line is no heading of level 2 or more. *)
Definition no_page_heading (l : str) : Prop :=
  match match_heading (Py.strip l) with
  | Some (level, _) => (level < 2)%Z
  | None => True
  end.

(** The line is no anchor line. *)
Definition no_marker (l : str) : Prop := is_anchor_line (Py.strip l) = false.

(** The line is no document title. *)
Definition no_doc_title (l : str) : Prop := is_doc_title_line (Py.strip l) = false.

(** The page has a title that [process_page] and
    [process_aggregator_children_as_alias_sections] accept. *)
Definition titled (fs : gmap path str) (inc : path) : bool :=
  negb (problematic_title (fst (get_title_and_anchor fs inc false))).

(** The entry of an included page on the alias page: the title and the
    anchor of the page in page-title mode, the alias as target. *)
Definition child_entry (fs : gmap path str) (alias : str) (current_level : Z)
  (inc : path) : NavEntry :=
  entry_of (Z.min (current_level + 1) MAX_NAV_DEPTH) alias
           (fst (get_title_and_anchor fs inc false))
           (snd (get_title_and_anchor fs inc false)).

Definition is_star (c : ascii) : bool := Char.eqb c "*"%char.

(** The nesting depth a line shows: the number of [*] it starts with. *)
Definition stars (line : str) : Z := Z.of_nat (List.length (take_while is_star line)).

(** The line is the line of an entry whose depth is between 1 and the
    maximum, and it shows that depth. *)
Definition entry_line (line : str) : Prop :=
  exists e : NavEntry,
    line = render e /\ (1 <= depth e <= MAX_NAV_DEPTH)%Z /\ stars line = depth e.

(** A line of the navigation: an entry, or the empty line between two
    books. *)
Definition nav_ok (line : str) : Prop := line = [] \/ entry_line line.

(** [nav'] is [nav] with lines of kind [P] added at the end. *)
Definition nav_extends (P : str -> Prop) (nav nav' : list str) : Prop :=
  exists added : list str, nav' = nav ++ added /\ Forall P added.

(** The places where [create_alias_file] can write. *)
Definition stub_paths : gset path :=
  {[ stub_path book_alias; stub_path intro_alias ]}.

(** The paths of [U] that were not visited under [master_key]. *)
Definition unvisited (U : gset path) (master_key : str) (V : gset (path * str))
  : gset path :=
  filter (fun p => (p, master_key) ∉ V) U.

(** No call of [process_page] was made twice with the same file and
    master, and every call was for a pair marked as visited. *)
Definition calls_once (st : state) : Prop :=
  NoDup (calls st) /\ forall key, key ∈ calls st -> key ∈ visited st.

(** From [s] to [s'] no file was changed or removed, stubs apart. *)
Definition files_kept (s s' : state) : Prop :=
  (forall p : path, p ∉ stub_paths -> files s' !! p = files s !! p)
  /\ dom (files s) ⊆ dom (files s').

(** From [s] to [s'] the visited set only grew, and by pairs of an
    existing file and the master [master_key] only. *)
Definition visited_grew (master_key : str) (s s' : state) : Prop :=
  visited s ⊆ visited s'
  /\ forall key : path * str,
       key ∈ visited s' ->
       key ∈ visited s \/ (snd key = master_key /\ fst key ∈ dom (files s')).

(** The test of the section loop of [process_page]: the heading repeats
    the page's own anchor or, letter case apart, its own title. *)
Definition repeats_page (page_title page_anchor : str) (section : Z * str * str)
  : bool :=
  Py.str_eqb (snd (fst section)) page_anchor
  || Py.str_eqb (Py.lower (Py.strip (snd section))) (Py.lower (Py.strip page_title)).

(** The entries of the section headings of a page at depth
    [current_level]: none when they would be deeper than the maximum. *)
Definition section_entries (final page_title page_anchor : str) (current_level : Z)
  (sections : list (Z * str * str)) : list NavEntry :=
  if (current_level + 1 <=? MAX_NAV_DEPTH)%Z
  then map (fun s => entry_of (current_level + 1) final (snd s) (snd (fst s)))
           (List.filter (fun s => negb (repeats_page page_title page_anchor s)) sections)
  else [].

(** The line holds none of the characters that [str.splitlines] breaks
    lines at. *)
Definition one_line (l : str) : Prop := Forall (fun c => Char.is_linebreak c = false) l.

(** * Properties *)

(** ** Character classes *)

Ltac each_char c := destruct c as [[] [] [] [] [] [] [] []]; vm_compute; try reflexivity; try congruence.

Lemma lower_lower (c : ascii) : Char.lower (Char.lower c) = Char.lower c.
Proof. each_char c. Qed.

Lemma word_not_space (c : ascii) : Char.is_word c = true -> Char.is_space c = false.
Proof. each_char c. Qed.

Lemma hyphen_not_space (c : ascii) : Char.is_hyphen c = true -> Char.is_space c = false.
Proof. each_char c. Qed.

Lemma is_hyphen_eq (c : ascii) : Char.is_hyphen c = true -> c = Char.hyphen.
Proof. unfold Char.is_hyphen, Char.eqb. apply Ascii.eqb_eq. Qed.

Lemma one_of_hyphen (c : ascii) : Py.one_of "-" c = Char.is_hyphen c.
Proof. unfold Py.one_of. simpl. apply orb_false_r. Qed.

(** ** Stripping and squeezing *)

Lemma drop_while_ext (p q : ascii -> bool) (s : str) :
  (forall c, p c = q c) -> Py.drop_while p s = Py.drop_while q s.
Proof.
  intros E. induction s as [|c s IH]; simpl; [reflexivity|].
  rewrite <- E. destruct (p c); [exact IH | reflexivity].
Qed.

Lemma drop_while_head (p : ascii -> bool) (s : str) :
  head_outside p (Py.drop_while p s).
Proof.
  induction s as [|c s IH]; simpl; [exact I|].
  destruct (p c) eqn:E; [exact IH | exact E].
Qed.

Lemma drop_while_id (p : ascii -> bool) (s : str) :
  head_outside p s -> Py.drop_while p s = s.
Proof. destruct s as [|c s]; simpl; [reflexivity|]. intros ->. reflexivity. Qed.

Lemma drop_while_suffix (p : ascii -> bool) (s : str) :
  exists pre, s = pre ++ Py.drop_while p s.
Proof.
  induction s as [|c s [pre IH]]; simpl.
  - exists []. reflexivity.
  - destruct (p c).
    + exists (c :: pre). simpl. f_equal. exact IH.
    + exists []. reflexivity.
Qed.

Lemma rstrip_prefix (p : ascii -> bool) (s : str) :
  exists post, s = Py.rstrip_with p s ++ post.
Proof.
  unfold Py.rstrip_with.
  destruct (drop_while_suffix p (rev s)) as [pre E].
  exists (rev pre).
  rewrite <- rev_app_distr, <- E. symmetry. apply rev_involutive.
Qed.

Lemma rstrip_last (p : ascii -> bool) (s : str) :
  head_outside p (rev (Py.rstrip_with p s)).
Proof. unfold Py.rstrip_with. rewrite rev_involutive. apply drop_while_head. Qed.

Lemma rstrip_id (p : ascii -> bool) (s : str) :
  head_outside p (rev s) -> Py.rstrip_with p s = s.
Proof.
  intros H. unfold Py.rstrip_with. rewrite drop_while_id by exact H.
  apply rev_involutive.
Qed.

Lemma strip_with_id (p : ascii -> bool) (s : str) :
  head_outside p s -> head_outside p (rev s) -> Py.strip_with p s = s.
Proof.
  intros H1 H2. unfold Py.strip_with, Py.lstrip_with.
  rewrite drop_while_id by exact H1. apply rstrip_id, H2.
Qed.

Lemma head_outside_prefix (p : ascii -> bool) (s post : str) :
  head_outside p (s ++ post) -> head_outside p s.
Proof. destruct s; simpl; auto. Qed.

Lemma strip_with_ends (p : ascii -> bool) (s : str) :
  head_outside p (Py.strip_with p s) /\ head_outside p (rev (Py.strip_with p s)).
Proof.
  unfold Py.strip_with, Py.lstrip_with. split; [|apply rstrip_last].
  destruct (rstrip_prefix p (Py.drop_while p s)) as [post E].
  apply head_outside_prefix with post. rewrite <- E. apply drop_while_head.
Qed.

Lemma squeezed_weaken (p : ascii -> bool) (b : bool) (s : str) :
  squeezed p b s -> squeezed p false s.
Proof. destruct s as [|c s]; simpl; [auto|]. destruct (p c); tauto. Qed.

Lemma squeezed_suffix (p : ascii -> bool) (pre s : str) (b : bool) :
  squeezed p b (pre ++ s) -> squeezed p false s.
Proof.
  revert b. induction pre as [|c pre IH]; simpl; intros b H.
  - eapply squeezed_weaken, H.
  - destruct (p c); [destruct H as [_ H]|]; eapply IH, H.
Qed.

Lemma squeezed_prefix (p : ascii -> bool) (s post : str) (b : bool) :
  squeezed p b (s ++ post) -> squeezed p b s.
Proof.
  revert b. induction s as [|c s IH]; simpl; intros b H; [exact I|].
  destruct (p c); [destruct H as [Hb H]; split; [exact Hb|]|]; eapply IH, H.
Qed.

Lemma squeezed_strip (p q : ascii -> bool) (s : str) :
  squeezed p false s -> squeezed p false (Py.strip_with q s).
Proof.
  intros H. unfold Py.strip_with, Py.lstrip_with.
  destruct (drop_while_suffix q s) as [pre E].
  destruct (rstrip_prefix q (Py.drop_while q s)) as [post E'].
  rewrite E in H. apply squeezed_suffix in H.
  rewrite E' in H. eapply squeezed_prefix, H.
Qed.

Lemma squeeze_squeezed (p : ascii -> bool) (r : ascii) (b : bool) (s : str) :
  p r = true -> squeezed p b (Py.squeeze p r b s).
Proof.
  intros Hr. revert b. induction s as [|c s IH]; simpl; intros b; [exact I|].
  destruct (p c) eqn:E.
  - destruct b; [apply IH|]. simpl. rewrite Hr. split; [reflexivity | apply IH].
  - simpl. rewrite E. apply IH.
Qed.

Lemma squeeze_id (p : ascii -> bool) (r : ascii) (b : bool) (s : str) :
  squeezed p b s -> Forall (fun c => p c = true -> c = r) s ->
  Py.squeeze p r b s = s.
Proof.
  revert b. induction s as [|c s IH]; simpl; intros b H F; [reflexivity|].
  inversion F as [|? ? Hc F']; subst.
  destruct (p c) eqn:E.
  - destruct H as [-> H]. rewrite (Hc eq_refl) at 1. f_equal. apply IH; assumption.
  - f_equal. apply IH; assumption.
Qed.

Lemma squeeze_none (p : ascii -> bool) (r : ascii) (b : bool) (s : str) :
  Forall (fun c => p c = false) s -> Py.squeeze p r b s = s.
Proof.
  revert b. induction s as [|c s IH]; simpl; intros b F; [reflexivity|].
  inversion F as [|? ? Hc F']; subst. rewrite Hc. f_equal. apply IH, F'.
Qed.

Lemma squeeze_Forall (P : ascii -> Prop) (p : ascii -> bool) (r : ascii) (b : bool) (s : str) :
  P r -> Forall (fun c => p c = false -> P c) s -> Forall P (Py.squeeze p r b s).
Proof.
  intros Hr. revert b. induction s as [|c s IH]; simpl; intros b F; [constructor|].
  inversion F as [|? ? Hc F']; subst.
  destruct (p c) eqn:E.
  - destruct b; [apply IH, F' | constructor; [exact Hr | apply IH, F']].
  - constructor; [apply Hc; reflexivity | apply IH, F'].
Qed.

Lemma Forall_strip_with (P : ascii -> Prop) (q : ascii -> bool) (s : str) :
  Forall P s -> Forall P (Py.strip_with q s).
Proof.
  intros F. unfold Py.strip_with, Py.lstrip_with.
  destruct (drop_while_suffix q s) as [pre E].
  destruct (rstrip_prefix q (Py.drop_while q s)) as [post E'].
  rewrite E in F. apply Forall_app in F as [_ F].
  rewrite E' in F. apply Forall_app in F as [F _]. exact F.
Qed.

(** ** Derived anchors *)

Lemma slug_char_hyphen : slug_char Char.hyphen.
Proof. split; [right|]; reflexivity. Qed.

Lemma slug_char_not_space (c : ascii) : slug_char c -> Char.is_space c = false.
Proof. intros [[H|H] _]; [apply word_not_space | apply hyphen_not_space]; exact H. Qed.

Lemma slug_char_keep (c : ascii) : slug_char c -> keep_word_space_hyphen c = true.
Proof.
  intros [[H|H] _]; unfold keep_word_space_hyphen; rewrite H;
    [reflexivity | apply orb_true_r].
Qed.

Lemma head_outside_ext (p q : ascii -> bool) (s : str) :
  (forall c, p c = q c) -> head_outside p s -> head_outside q s.
Proof. intros E. destruct s; simpl; [auto|]. rewrite E. auto. Qed.

Lemma Forall_head_outside (p : ascii -> bool) (s : str) :
  Forall (fun c => p c = false) s -> head_outside p s.
Proof. intros F. destruct F; simpl; auto. Qed.

Lemma filter_all (p : ascii -> bool) (s : str) :
  Forall (fun c => p c = true) s -> List.filter p s = s.
Proof.
  induction 1 as [|c s Hc _ IH]; simpl; [reflexivity|]. rewrite Hc, IH. reflexivity.
Qed.

Lemma lower_fixed (s : str) :
  Forall (fun c => Char.lower c = c) s -> Py.lower s = s.
Proof.
  induction 1 as [|c s Hc _ IH]; simpl; [reflexivity|]. rewrite Hc. f_equal. exact IH.
Qed.

Lemma kept_lowered (s : str) :
  Forall (fun c => keep_word_space_hyphen c = true /\ Char.lower c = c)
         (List.filter keep_word_space_hyphen (Py.lower s)).
Proof.
  apply List.Forall_forall. intros c Hc.
  apply List.filter_In in Hc as [Hin Hk]. split; [exact Hk|].
  unfold Py.lower in Hin. apply List.in_map_iff in Hin as (c0 & <- & _).
  apply lower_lower.
Qed.

Lemma make_anchor_slugged (title : str) : slugged (make_anchor_from_title title).
Proof.
  unfold make_anchor_from_title, Py.strip_chars.
  set (t1 := List.filter keep_word_space_hyphen (Py.lower (Py.strip title))).
  assert (F2 : Forall slug_char (Py.squeeze Char.is_space Char.hyphen false t1)).
  { apply squeeze_Forall; [exact slug_char_hyphen|].
    eapply List.Forall_impl; [|apply kept_lowered].
    intros c [Hk Hl] Hs. split; [|exact Hl].
    unfold keep_word_space_hyphen in Hk. rewrite Hs, orb_false_r in Hk.
    apply orb_true_iff in Hk. exact Hk. }
  set (t2 := Py.squeeze Char.is_space Char.hyphen false t1) in *.
  assert (F3 : Forall slug_char (Py.squeeze Char.is_hyphen Char.hyphen false t2)).
  { apply squeeze_Forall; [exact slug_char_hyphen|].
    eapply List.Forall_impl; [|exact F2]. auto. }
  set (t3 := Py.squeeze Char.is_hyphen Char.hyphen false t2) in *.
  destruct (strip_with_ends (Py.one_of "-") t3) as [E1 E2].
  repeat split.
  - apply Forall_strip_with, F3.
  - apply squeezed_strip, squeeze_squeezed. reflexivity.
  - eapply head_outside_ext; [apply one_of_hyphen | exact E1].
  - eapply head_outside_ext; [apply one_of_hyphen | exact E2].
Qed.

Lemma slugged_fixed (s : str) : slugged s -> make_anchor_from_title s = s.
Proof.
  intros (F & Sq & H1 & H2).
  assert (Fs : Forall (fun c => Char.is_space c = false) s).
  { eapply List.Forall_impl; [|exact F]. apply slug_char_not_space. }
  unfold make_anchor_from_title, Py.strip, Py.strip_chars.
  rewrite (strip_with_id Char.is_space s).
  2: { apply Forall_head_outside, Fs. }
  2: { apply Forall_head_outside, List.Forall_rev, Fs. }
  rewrite lower_fixed.
  2: { eapply List.Forall_impl; [|exact F]. intros c [_ Hc]. exact Hc. }
  rewrite filter_all.
  2: { eapply List.Forall_impl; [|exact F]. apply slug_char_keep. }
  rewrite (squeeze_none Char.is_space) by exact Fs.
  rewrite (squeeze_id Char.is_hyphen).
  2: { exact Sq. }
  2: { apply List.Forall_forall. intros c _. apply is_hyphen_eq. }
  apply strip_with_id.
  - eapply head_outside_ext; [|exact H1]. intros c. symmetry. apply one_of_hyphen.
  - eapply head_outside_ext; [|exact H2]. intros c. symmetry. apply one_of_hyphen.
Qed.

(** C8: deriving an anchor is idempotent: the anchor derived from a
    derived anchor is that anchor, for every title. *)
Theorem make_anchor_idempotent (title : str) :
  make_anchor_from_title (make_anchor_from_title title) = make_anchor_from_title title.
Proof. apply slugged_fixed, make_anchor_slugged. Qed.

(** ** Alias rules *)

Lemma resolve_alias_keys_cons (table : gmap str (gmap str str)) (key : str)
  (keys : list str) (x : str) :
  resolve_alias_keys table (key :: keys) x =
  match rule_of table key x with
  | Some alias => (alias, Some alias)
  | None => resolve_alias_keys table keys x
  end.
Proof. unfold rule_of. simpl. destruct (table !! key); reflexivity. Qed.

Lemma resolve_alias_in_eq (table : gmap str (gmap str str)) (master_key x : str) :
  resolve_alias_in table master_key x =
    match rule_of table master_key x with
    | Some alias => (alias, Some alias)
    | None =>
        match rule_of table (Path.name master_key) x with
        | Some alias => (alias, Some alias)
        | None => (x, None)
        end
    end.
Proof. unfold resolve_alias_in. rewrite !resolve_alias_keys_cons. reflexivity. Qed.

(** C7: alias resolution looks for a rule for the content path first
    under the master's full relative path and then under its file name,
    and returns the target of the first rule found, for every rule
    table, [ALIAS_MAP] among them; with no rule under either key it
    returns the path as it came and no alias. *)
Theorem resolve_alias_lookup_order (table : gmap str (gmap str str))
  (master_key xref_path_str : str) :
  resolve_alias_in table master_key xref_path_str =
    match rule_of table master_key xref_path_str with
    | Some alias => (alias, Some alias)
    | None =>
        match rule_of table (Path.name master_key) xref_path_str with
        | Some alias => (alias, Some alias)
        | None => (xref_path_str, None)
        end
    end
  /\ resolve_alias master_key xref_path_str
     = resolve_alias_in ALIAS_MAP master_key xref_path_str.
Proof.
  split; [apply resolve_alias_in_eq | reflexivity].
Qed.

Lemma reference_rules_cases (x alias : str) :
  reference_rules !! x = Some alias ->
  (x = book_path /\ alias = book_alias) \/ (x = intro_path /\ alias = intro_alias).
Proof.
  unfold reference_rules. rewrite !lookup_insert_Some, lookup_empty.
  intros [[<- <-]|[_ [[<- <-]|[_ H]]]]; [left | right | discriminate H]; split; reflexivity.
Qed.

Lemma rule_of_alias_map (key x alias : str) :
  rule_of ALIAS_MAP key x = Some alias -> reference_rules !! x = Some alias.
Proof.
  unfold rule_of, ALIAS_MAP.
  destruct (_ !! key) as [rules|] eqn:E; [|discriminate].
  rewrite !lookup_insert_Some, lookup_empty in E.
  destruct E as [[_ <-]|[_ [[_ <-]|[_ E]]]]; [auto | auto | discriminate E].
Qed.

(** Every rule of [ALIAS_MAP] that can match is one of the two rules of
    the reference guide. *)
Lemma resolve_alias_cases (master_key x alias : str) :
  resolve_alias master_key x = (alias, Some alias) ->
  (x = book_path /\ alias = book_alias) \/ (x = intro_path /\ alias = intro_alias).
Proof.
  unfold resolve_alias.
  rewrite resolve_alias_in_eq.
  destruct (rule_of ALIAS_MAP master_key x) as [a|] eqn:E1.
  - intros [= <-]. apply reference_rules_cases, (rule_of_alias_map _ _ _ E1).
  - destruct (rule_of ALIAS_MAP (Path.name master_key) x) as [a|] eqn:E2.
    + intros [= <-]. apply reference_rules_cases, (rule_of_alias_map _ _ _ E2).
    + intros [= _ H].
Qed.

Lemma resolve_alias_shape (master_key x final : str) (created : option str) :
  resolve_alias master_key x = (final, created) ->
  (created = Some final) \/ (created = None /\ final = x).
Proof.
  unfold resolve_alias.
  rewrite resolve_alias_in_eq.
  destruct (rule_of _ master_key x); [intros [= <- <-]; auto|].
  destruct (rule_of _ _ x); intros [= <- <-]; auto.
Qed.

(** ** Paths *)

Lemma str_eqb_refl (a : str) : Py.str_eqb a a = true.
Proof. unfold Py.str_eqb. apply bool_decide_eq_true. reflexivity. Qed.

Lemma str_eqb_eq (a b : str) : Py.str_eqb a b = true <-> a = b.
Proof. unfold Py.str_eqb. apply bool_decide_eq_true. Qed.

Lemma str_eqb_neq (a b : str) : Py.str_eqb a b = false <-> a <> b.
Proof. unfold Py.str_eqb. apply bool_decide_eq_false. Qed.

Lemma PAGES_DIR_eq :
  PAGES_DIR = CWD ++ ["src" : str; "modules" : str; "ROOT" : str; "pages" : str].
Proof.
  unfold PAGES_DIR, MODULE_ROOT, SRC_DIR, Path.joinpath.
  change (Path.is_absolute "src") with false.
  change (Path.is_absolute "modules/ROOT") with false.
  change (Path.is_absolute "pages") with false.
  change (Path.parts "src") with ["src" : str].
  change (Path.parts "modules/ROOT") with ["modules" : str; "ROOT" : str].
  change (Path.parts "pages") with ["pages" : str].
  cbv iota. rewrite <- !app_assoc. reflexivity.
Qed.

Lemma resolve_fold_plain (acc b : path) :
  Forall plain b -> fold_left Path.resolve_step b acc = acc ++ b.
Proof.
  intros F. revert acc. induction F as [|c b Hc _ IH]; intros acc; simpl.
  - symmetry. apply app_nil_r.
  - unfold Path.resolve_step at 2.
    apply str_eqb_neq in Hc. rewrite Hc, IH, <- app_assoc. reflexivity.
Qed.

Lemma resolve_app_plain (a b : path) :
  Forall plain b -> Path.resolve (a ++ b) = Path.resolve a ++ b.
Proof.
  intros F. unfold Path.resolve. rewrite fold_left_app. apply resolve_fold_plain, F.
Qed.

Lemma resolve_plain (p : path) : Forall plain p -> Path.resolve p = p.
Proof. intros F. apply (resolve_fold_plain [] p F). Qed.

Lemma common_prefix_app (r a b : path) :
  Path.common_prefix (r ++ a) (r ++ b) = r ++ Path.common_prefix a b.
Proof.
  induction r as [|x r IH]; simpl; [reflexivity|].
  rewrite str_eqb_refl, IH. reflexivity.
Qed.

(** A relative path between two places below the same directory does
    not depend on that directory. *)
Lemma relpath_below (base p start : path) :
  Forall plain p -> Forall plain start ->
  Path.relpath (base ++ p) (base ++ start) = Path.relpath p start.
Proof.
  intros Fp Fs. unfold Path.relpath.
  rewrite !resolve_app_plain by assumption.
  rewrite (resolve_plain p Fp), (resolve_plain start Fs).
  rewrite common_prefix_app, !length_app.
  replace (List.length (Path.resolve base) + List.length start
           - (List.length (Path.resolve base)
              + List.length (Path.common_prefix start p)))
    with (List.length start - List.length (Path.common_prefix start p)) by lia.
  rewrite drop_app_add'; [reflexivity | reflexivity].
Qed.

Lemma joinpath_relative (base : path) (s : str) :
  Path.is_absolute s = false -> Path.joinpath base s = base ++ Path.parts s.
Proof. unfold Path.joinpath. intros ->. reflexivity. Qed.

Lemma parent_app (base : path) (a b : str) :
  Path.parent (base ++ [a; b]) = base ++ [a].
Proof. unfold Path.parent. rewrite removelast_app by discriminate. reflexivity. Qed.

Ltac plain_components :=
  repeat (apply List.Forall_cons; [unfold plain; discriminate|]); apply List.Forall_nil.

(** ** Alias stubs *)

(** For both rules the stub is in [referenceguide/] and the content one
    directory beside it. *)
Lemma alias_relpath (master_key x alias : str) :
  resolve_alias master_key x = (alias, Some alias) ->
  Path.relpath (Path.joinpath PAGES_DIR x) (Path.parent (stub_path alias)) = "../" ++ x.
Proof.
  intros H. unfold stub_path.
  destruct (resolve_alias_cases _ _ _ H) as [[-> ->]|[-> ->]];
    rewrite !joinpath_relative by reflexivity.
  - change (Path.parts book_path) with ["perfdmf" : str; "book.adoc" : str].
    change (Path.parts book_alias) with ["referenceguide" : str; "taudb-alias.adoc" : str].
    rewrite parent_app, relpath_below by plain_components. reflexivity.
  - change (Path.parts intro_path) with ["newguide" : str; "introduction.adoc" : str].
    change (Path.parts intro_alias)
      with ["referenceguide" : str; "installation-alias.adoc" : str].
    rewrite parent_app, relpath_below by plain_components. reflexivity.
Qed.

Lemma alias_content_lines (master_key x alias : str) :
  resolve_alias master_key x = (alias, Some alias) ->
  Py.splitlines (alias_content alias x)
  = [ ":page-alias: " ++ x; "include::" ++ "../" ++ x ++ "[]" ].
Proof.
  intros H. unfold alias_content.
  fold (stub_path alias). rewrite (alias_relpath _ _ _ H).
  destruct (resolve_alias_cases _ _ _ H) as [[-> ->]|[-> ->]]; reflexivity.
Qed.

(** C2: for every alias rule that matches, the stub written holds two
    lines and no more: the page-alias line with the relative path of the
    shared content, and one include of that content by its path relative
    to the directory of the stub.  What is written depends on the rule
    only, not on what the file system held, so a second run writes the
    same bytes. *)
Theorem alias_stub_content (fs : gmap path str) (master_key x alias : str) :
  resolve_alias master_key x = (alias, Some alias) ->
  let fs' := create_alias_file alias x fs in
  let relative_include_path :=
    Path.relpath (Path.joinpath PAGES_DIR x) (Path.parent (stub_path alias)) in
  read_text_lines fs' (stub_path alias)
    = [ ":page-alias: " ++ x; "include::" ++ relative_include_path ++ "[]" ]
  /\ fs' !! stub_path alias
     = Some (":page-alias: " ++ x ++ nl ++ "include::" ++ relative_include_path ++ "[]" ++ nl)
  /\ relative_include_path = "../" ++ x
  /\ (forall fs2 : gmap path str,
         create_alias_file alias x fs2 !! stub_path alias = fs' !! stub_path alias)
  /\ create_alias_file alias x fs' = fs'.
Proof.
  intros H fs' rel.
  assert (L : fs' !! stub_path alias = Some (alias_content alias x)).
  { unfold fs', create_alias_file, stub_path. apply lookup_insert_eq. }
  repeat split.
  - unfold read_text_lines. rewrite L, (alias_content_lines _ _ _ H).
    unfold rel. rewrite (alias_relpath _ _ _ H). reflexivity.
  - exact L.
  - apply (alias_relpath _ _ _ H).
  - intros fs2. rewrite L. unfold create_alias_file, stub_path. apply lookup_insert_eq.
  - unfold fs', create_alias_file. apply insert_insert_eq.
Qed.

(** ** Kinds of lines *)

Lemma skippable_not_anchor (line : str) :
  skippable line = true -> is_anchor_line line = false.
Proof.
  destruct line as [|c line]; [reflexivity|].
  unfold is_anchor_line. cbn [Py.startswith list_ascii_of_string].
  destruct (Char.eqb "[" c) eqn:E; [|reflexivity].
  apply Ascii.eqb_eq in E. subst c. intros H. vm_compute in H. discriminate H.
Qed.

Lemma anchor_not_heading (line : str) :
  is_anchor_line line = true -> match_heading line = None.
Proof.
  destruct line as [|c line]; [discriminate|].
  unfold is_anchor_line. cbn [Py.startswith list_ascii_of_string].
  destruct (Char.eqb "[" c) eqn:E; [|discriminate].
  apply Ascii.eqb_eq in E. subst c. reflexivity.
Qed.

Lemma doc_title_not_skippable (line : str) :
  is_doc_title_line line = true -> skippable line = false.
Proof.
  destruct line as [|c line]; [discriminate|].
  unfold is_doc_title_line. cbn [Py.startswith list_ascii_of_string].
  destruct (Char.eqb "=" c) eqn:E; [|discriminate].
  apply Ascii.eqb_eq in E. subst c. reflexivity.
Qed.

Lemma doc_title_not_anchor (line : str) :
  is_doc_title_line line = true -> is_anchor_line line = false.
Proof.
  destruct line as [|c line]; [discriminate|].
  unfold is_doc_title_line. cbn [Py.startswith list_ascii_of_string].
  destruct (Char.eqb "=" c) eqn:E; [|discriminate].
  apply Ascii.eqb_eq in E. subst c. reflexivity.
Qed.

Lemma heading_not_skippable (line : str) (h : Z * str) :
  match_heading line = Some h -> skippable line = false.
Proof.
  destruct line as [|c line]; [discriminate|].
  unfold match_heading. cbn [take_while Py.drop_while].
  destruct (is_equals c) eqn:E; [|discriminate].
  apply Ascii.eqb_eq in E. subst c. reflexivity.
Qed.

(** ** Page-title mode is one pass *)

Lemma find_next_heading_page (resume : list str -> str * str) (a : str) (n : nat) :
  (forall ls, List.length ls <= n -> resume ls = page_scan a ls) ->
  forall ls, List.length ls <= n -> find_next_heading resume false a ls = page_scan a ls.
Proof.
  intros R. induction ls as [|p ls IH]; intros L; [reflexivity|].
  cbn [find_next_heading page_scan]. fold (find_next_heading resume false a).
  destruct (skippable (Py.strip p)) eqn:Sk.
  - apply IH. simpl in L. lia.
  - cbn [andb]. rewrite (R (p :: ls) L). cbn [page_scan]. rewrite Sk.
    destruct (is_anchor_line (Py.strip p)) eqn:An.
    + rewrite (anchor_not_heading _ An). reflexivity.
    + destruct (match_heading (Py.strip p)) as [[level g]|]; [|reflexivity].
      destruct (2 <=? level)%Z; reflexivity.
Qed.

Lemma scan_title_page_bounded (n : nat) :
  forall (lines : list str) (a : str),
    List.length lines <= n -> scan_title false a lines = page_scan a lines.
Proof.
  induction n as [|n IHn]; intros lines a L.
  - destruct lines; [reflexivity | simpl in L; lia].
  - destruct lines as [|l rest]; [reflexivity|].
    simpl in L. cbn [scan_title page_scan].
    destruct (skippable (Py.strip l)); [apply IHn; lia|].
    destruct (is_anchor_line (Py.strip l)).
    + apply find_next_heading_page with n; [|lia].
      intros ls Hls. apply IHn, Hls.
    + destruct (match_heading (Py.strip l)) as [[level g]|]; [|apply IHn; lia].
      destruct (2 <=? level)%Z; [reflexivity | apply IHn; lia].
Qed.

Lemma scan_title_page (lines : list str) (a : str) :
  scan_title false a lines = page_scan a lines.
Proof. apply scan_title_page_bounded with (List.length lines). reflexivity. Qed.

Lemma page_mode_scan (lines : list str) :
  title_and_anchor_of_lines lines false = page_scan [] lines.
Proof. destruct lines; [reflexivity|]. apply scan_title_page. Qed.

Lemma not_skippable_anchor (line : str) :
  is_anchor_line line = true -> skippable line = false.
Proof.
  intros An. destruct (skippable line) eqn:Sk; [|reflexivity].
  rewrite (skippable_not_anchor _ Sk) in An. discriminate An.
Qed.

Lemma heading_not_anchor (line : str) (h : Z * str) :
  match_heading line = Some h -> is_anchor_line line = false.
Proof.
  intros Hh. destruct (is_anchor_line line) eqn:An; [|reflexivity].
  rewrite (anchor_not_heading _ An) in Hh. discriminate Hh.
Qed.

(** Lines without a heading of level 2 or more only move the pending
    anchor. *)
Lemma page_scan_skip (pre rest : list str) (a : str) :
  Forall no_page_heading pre ->
  page_scan a (pre ++ rest) = page_scan (last_marker a pre) rest.
Proof.
  intros F. revert a. induction F as [|l pre Hl _ IH]; intros a; [reflexivity|].
  cbn [app page_scan last_marker].
  destruct (skippable (Py.strip l)) eqn:Sk.
  - rewrite (skippable_not_anchor _ Sk). apply IH.
  - destruct (is_anchor_line (Py.strip l)); [apply IH|].
    unfold no_page_heading in Hl.
    destruct (match_heading (Py.strip l)) as [[level g]|]; [|apply IH].
    destruct (Z.leb_spec 2 level); [lia | apply IH].
Qed.

Lemma last_marker_none (lines : list str) (a : str) :
  Forall no_marker lines -> last_marker a lines = a.
Proof.
  induction 1 as [|l lines Hl _ IH]; [reflexivity|].
  cbn [last_marker]. rewrite Hl. exact IH.
Qed.

Lemma no_heading_no_page_heading (l : str) : no_heading l -> no_page_heading l.
Proof. unfold no_heading, no_page_heading. intros ->. exact I. Qed.

Lemma page_scan_untitled (lines : list str) (a : str) :
  Forall no_heading lines -> page_scan a lines = (UNTITLED, last_marker a lines).
Proof.
  intros F. rewrite <- (app_nil_r lines) at 1. rewrite page_scan_skip; [reflexivity|].
  eapply List.Forall_impl; [|exact F]. apply no_heading_no_page_heading.
Qed.

Lemma page_scan_heading (h : str) (post : list str) (a g : str) (level : Z) :
  match_heading (Py.strip h) = Some (level, g) -> (2 <= level)%Z ->
  page_scan a (h :: post) = (Py.strip g, anchor_or_slug a (Py.strip g)).
Proof.
  intros Hh Hl. cbn [page_scan].
  rewrite (heading_not_skippable _ _ Hh), (heading_not_anchor _ _ Hh), Hh.
  destruct (Z.leb_spec 2 level); [reflexivity | lia].
Qed.

(** C9: in page-title mode an anchor line stays pending over the lines
    that follow it, body lines too: with no other anchor line and no
    heading of level 2 or more in between, the first such heading after
    it takes the id of the anchor line, not the anchor derived from its
    title. *)
Theorem pending_anchor_carried (fs : gmap path str) (file_path : path)
  (pre mid post : list str) (a h g : str) (level : Z) :
  read_text_lines fs file_path = pre ++ a :: mid ++ h :: post ->
  Forall no_page_heading pre ->
  is_anchor_line (Py.strip a) = true ->
  anchor_of_line (Py.strip a) <> [] ->
  Forall (fun l => no_marker l /\ no_page_heading l) mid ->
  match_heading (Py.strip h) = Some (level, g) -> (2 <= level)%Z ->
  get_title_and_anchor fs file_path false = (Py.strip g, anchor_of_line (Py.strip a)).
Proof.
  intros E Fpre An Id Fmid Hh Hl.
  unfold get_title_and_anchor. rewrite E, page_mode_scan, page_scan_skip by exact Fpre.
  cbn [page_scan]. rewrite (not_skippable_anchor _ An), An.
  rewrite page_scan_skip.
  2: { eapply List.Forall_impl; [|exact Fmid]. intros l [_ H]. exact H. }
  rewrite last_marker_none.
  2: { eapply List.Forall_impl; [|exact Fmid]. intros l [H _]. exact H. }
  rewrite (page_scan_heading _ _ _ _ _ Hh Hl). unfold anchor_or_slug.
  destruct (anchor_of_line (Py.strip a)); [contradiction | reflexivity].
Qed.

(** ** Document-title mode *)

Lemma doc_scan_quiet (pre rest : list str) (a : str) :
  Forall (fun l => no_marker l /\ no_doc_title l) pre ->
  scan_title true a (pre ++ rest) = scan_title true a rest.
Proof.
  induction 1 as [|l pre [Hm Hd] _ IH]; [reflexivity|].
  cbn [app scan_title]. rewrite Hm, Hd.
  destruct (skippable (Py.strip l)); exact IH.
Qed.

Lemma doc_scan_title_line (h : str) (post : list str) (a : str) :
  is_doc_title_line (Py.strip h) = true ->
  scan_title true a (h :: post)
  = (doc_title_of (Py.strip h), anchor_or_slug a (doc_title_of (Py.strip h))).
Proof.
  intros Hd. cbn [scan_title].
  rewrite (doc_title_not_skippable _ Hd), (doc_title_not_anchor _ Hd), Hd. reflexivity.
Qed.

Lemma find_next_heading_doc (resume : list str -> str * str) (a h : str)
  (mid post : list str) :
  Forall (fun l => skippable (Py.strip l) = true) mid ->
  is_doc_title_line (Py.strip h) = true ->
  find_next_heading resume true a (mid ++ h :: post) = (doc_title_of (Py.strip h), a).
Proof.
  intros F Hd. induction F as [|l mid Hl _ IH].
  - cbn [app find_next_heading]. rewrite (doc_title_not_skippable _ Hd), Hd. reflexivity.
  - cbn [app find_next_heading]. rewrite Hl. exact IH.
Qed.

Lemma nonempty_lines (pre : list str) (l : str) (post : list str) (prefer : bool) :
  title_and_anchor_of_lines (pre ++ l :: post) prefer
  = scan_title prefer [] (pre ++ l :: post).
Proof. destruct pre; reflexivity. Qed.

(** C4, as the code has it: in document-title mode, when no anchor line
    comes before the first document title line, the anchor returned is
    the one derived from the title; when an anchor line comes right
    before that line, with skippable lines at most in between, the
    anchor returned is the id of the anchor line. *)
Theorem doc_title_anchor (fs : gmap path str) (plain_file marked_file : path)
  (pre mid post : list str) (a h : str) :
  Forall (fun l => no_marker l /\ no_doc_title l) pre ->
  is_doc_title_line (Py.strip h) = true ->
  is_anchor_line (Py.strip a) = true ->
  Forall (fun l => skippable (Py.strip l) = true) mid ->
  read_text_lines fs plain_file = pre ++ h :: post ->
  read_text_lines fs marked_file = pre ++ a :: mid ++ h :: post ->
  get_title_and_anchor fs plain_file true
  = (doc_title_of (Py.strip h), make_anchor_from_title (doc_title_of (Py.strip h)))
  /\ get_title_and_anchor fs marked_file true
     = (doc_title_of (Py.strip h), anchor_of_line (Py.strip a)).
Proof.
  intros Fpre Hd An Fmid E1 E2. unfold get_title_and_anchor. split.
  - rewrite E1, nonempty_lines, doc_scan_quiet, doc_scan_title_line by assumption.
    reflexivity.
  - rewrite E2, nonempty_lines, doc_scan_quiet by assumption.
    cbn [scan_title]. rewrite (not_skippable_anchor _ An), An.
    apply find_next_heading_doc; assumption.
Qed.

(** ** One call of [process_page] *)

Ltac proj_state :=
  cbn [nav_lines visited files calls set_nav set_files add_visited log_call] in *.

Lemma is_prefix_app (base p : path) :
  Path.is_prefix base p = true -> p = base ++ drop (List.length base) p.
Proof.
  revert p. induction base as [|x base IH]; intros p H; [reflexivity|].
  destruct p as [|y p]; [discriminate|].
  cbn [Path.is_prefix] in H. apply andb_true_iff in H as [Hx Hp].
  apply str_eqb_eq in Hx. subst y. cbn. f_equal. apply IH, Hp.
Qed.

Lemma relative_to_Some (p base rel : path) :
  Path.relative_to p base = Some rel -> p = base ++ rel.
Proof.
  unfold Path.relative_to. destruct (Path.is_prefix base p) eqn:E; [|discriminate].
  intros [= <-]. apply is_prefix_app, E.
Qed.

(** A page with an alias rule is not the stub of that rule. *)
Lemma page_is_not_stub (file_path xref : path) (master_key alias : str) :
  Path.relative_to file_path PAGES_DIR = Some xref ->
  resolve_alias master_key (Path.to_str xref) = (alias, Some alias) ->
  file_path <> stub_path alias.
Proof.
  intros Hrel Hal Heq. apply relative_to_Some in Hrel. subst file_path.
  unfold stub_path in Heq.
  destruct (resolve_alias_cases _ _ _ Hal) as [[Hx ->]|[Hx ->]];
    rewrite joinpath_relative in Heq by reflexivity;
    apply app_inv_head in Heq; subst xref; vm_compute in Hx; discriminate Hx.
Qed.

Lemma read_other_file (fs : gmap path str) (alias x : str) (p : path) :
  p <> stub_path alias ->
  read_text_lines (create_alias_file alias x fs) p = read_text_lines fs p.
Proof.
  intros Hne. unfold read_text_lines, create_alias_file.
  rewrite lookup_insert_ne; [reflexivity|]. intros E. apply Hne. symmetry. exact E.
Qed.

(** Writing the stub of a page does not change what the page reads
    as. *)
Lemma title_after_alias (file_path xref : path) (master_key final : str)
  (created : option str) (st : state) :
  Path.relative_to file_path PAGES_DIR = Some xref ->
  resolve_alias master_key (Path.to_str xref) = (final, created) ->
  read_text_lines (files (apply_alias created (Path.to_str xref) st)) file_path
  = read_text_lines (files st) file_path.
Proof.
  intros Hrel Hal.
  destruct (resolve_alias_shape _ _ _ _ Hal) as [->|[-> _]]; [|reflexivity].
  cbn [apply_alias]. proj_state.
  apply read_other_file, (page_is_not_stub _ _ _ _ Hrel Hal).
Qed.

(** A page whose title is empty or [untitled] is left right after the
    alias step: nothing is added to the navigation and nothing is
    visited. *)
Lemma process_page_skip (fuel : nat) (file_path : path) (master_key : str)
  (lvl : Z) (st : state) :
  problematic_title (fst (get_title_and_anchor (files st) file_path false)) = true ->
  exists st',
    process_page (S fuel) file_path master_key lvl st = Some st'
    /\ nav_lines st' = nav_lines st /\ visited st' = visited st
    /\ calls st' = calls st ++ [(file_path, master_key)].
Proof.
  intros Hp. cbn [process_page].
  destruct (Path.relative_to file_path PAGES_DIR) as [xref|] eqn:Hrel.
  2: { eexists. split; [reflexivity|]. proj_state. auto. }
  destruct (resolve_alias master_key (Path.to_str xref)) as [final created] eqn:Hal.
  assert (T : get_title_and_anchor
                (files (apply_alias created (Path.to_str xref)
                          (log_call (file_path, master_key) st))) file_path false
              = get_title_and_anchor (files st) file_path false).
  { unfold get_title_and_anchor. rewrite (title_after_alias _ _ _ _ _ _ Hrel Hal).
    reflexivity. }
  rewrite T. destruct (get_title_and_anchor (files st) file_path false) as [title a].
  cbn [fst] in Hp. rewrite Hp.
  eexists. split; [reflexivity|].
  destruct created; cbn [apply_alias]; proj_state; auto.
Qed.

(** C10: the alias step comes before the title is read.  A page with an
    alias rule whose title is empty or [untitled], whatever the case of
    its letters, is skipped with nothing added to the navigation, and
    the stub of the rule is written all the same. *)
Theorem stub_written_for_skipped_page (fuel : nat) (file_path xref : path)
  (master_key alias page_title page_anchor : str) (lvl : Z) (st : state) :
  Path.relative_to file_path PAGES_DIR = Some xref ->
  resolve_alias master_key (Path.to_str xref) = (alias, Some alias) ->
  get_title_and_anchor (files st) file_path false = (page_title, page_anchor) ->
  problematic_title page_title = true ->
  process_page (S fuel) file_path master_key lvl st
  = Some (mkState (nav_lines st) (visited st)
                  (create_alias_file alias (Path.to_str xref) (files st))
                  (calls st ++ [(file_path, master_key)]))
  /\ create_alias_file alias (Path.to_str xref) (files st) !! stub_path alias
     = Some (alias_content alias (Path.to_str xref)).
Proof.
  intros Hrel Hal Ht Hp. split.
  - cbn [process_page]. rewrite Hrel, Hal.
    assert (T : get_title_and_anchor
                  (files (apply_alias (Some alias) (Path.to_str xref)
                            (log_call (file_path, master_key) st))) file_path false
                = (page_title, page_anchor)).
    { rewrite <- Ht. unfold get_title_and_anchor.
      rewrite (title_after_alias _ _ _ _ _ _ Hrel Hal). reflexivity. }
    rewrite T, Hp. reflexivity.
  - unfold create_alias_file, stub_path. apply lookup_insert_eq.
Qed.

Lemma problematic_untitled : problematic_title UNTITLED = true.
Proof. reflexivity. Qed.

(** C3, as the code has it: for a file without any heading line the
    title resolved in page-title mode is [Untitled]; the anchor that
    comes with it is the id of the last anchor line of the file, and
    empty only when the file has none.  Both callers then leave the
    page: [process_page] adds no line to the navigation and visits
    nothing from it, and the loop over the children of an aliased
    aggregator adds no line for it. *)
Theorem untitled_without_headings (fuel : nat) (file_path : path)
  (master_key alias : str) (lvl : Z) (st : state) (nav : list str) :
  Forall no_heading (read_text_lines (files st) file_path) ->
  get_title_and_anchor (files st) file_path false
  = (UNTITLED, last_marker [] (read_text_lines (files st) file_path))
  /\ (exists st',
         process_page (S fuel) file_path master_key lvl st = Some st'
         /\ nav_lines st' = nav_lines st /\ visited st' = visited st
         /\ calls st' = calls st ++ [(file_path, master_key)])
  /\ alias_child_step (files st) alias lvl nav file_path = nav.
Proof.
  intros F.
  assert (T : get_title_and_anchor (files st) file_path false
              = (UNTITLED, last_marker [] (read_text_lines (files st) file_path))).
  { unfold get_title_and_anchor. rewrite page_mode_scan. apply page_scan_untitled, F. }
  split; [exact T|]. split.
  - apply process_page_skip. rewrite T. reflexivity.
  - unfold alias_child_step. rewrite T. reflexivity.
Qed.

(** ** Aggregator pages under an alias *)

Lemma alias_children_fold (fs : gmap path str) (alias : str) (lvl : Z)
  (incs : list path) (nav : list str) :
  fold_left (alias_child_step fs alias lvl) incs nav
  = nav ++ map render (map (child_entry fs alias lvl) (List.filter (titled fs) incs)).
Proof.
  revert nav. induction incs as [|inc incs IH]; intros nav.
  - symmetry. apply app_nil_r.
  - cbn [fold_left List.filter]. rewrite IH. unfold alias_child_step.
    change (titled fs inc)
      with (negb (problematic_title (fst (get_title_and_anchor fs inc false)))).
    destruct (get_title_and_anchor fs inc false) as [t a] eqn:E. cbn [fst].
    destruct (problematic_title t); cbn [negb map]; [reflexivity|].
    replace (child_entry fs alias lvl inc)
      with (entry_of (Z.min (lvl + 1) MAX_NAV_DEPTH) alias t a)
      by (unfold child_entry; rewrite E; reflexivity).
    unfold add_entry. rewrite <- app_assoc. reflexivity.
Qed.

Lemma alias_differs (master_key x alias : str) :
  resolve_alias master_key x = (alias, Some alias) -> alias <> x.
Proof.
  intros H. destruct (resolve_alias_cases _ _ _ H) as [[-> ->]|[-> ->]]; discriminate.
Qed.

(** C1, as the code has it: an aggregator page with an alias gets its
    own entry and after it one entry for every included page whose
    page-mode title is not empty and not [untitled]: the title and the
    anchor are the included page's, the target is the alias, the depth
    is one more than the page's, held at the maximum.  The included
    pages are not visited, and no entry has the path of the shared page
    as target. *)
Theorem aliased_aggregator_children (fuel : nat) (file_path xref : path)
  (master_key alias page_title page_anchor : str) (lvl : Z) (st : state) :
  let fs' := create_alias_file alias (Path.to_str xref) (files st) in
  let children := List.filter (titled fs') (extract_include_files fs' file_path) in
  let entries :=
    entry_of lvl alias page_title page_anchor
      :: map (child_entry fs' alias lvl) children in
  Path.relative_to file_path PAGES_DIR = Some xref ->
  resolve_alias master_key (Path.to_str xref) = (alias, Some alias) ->
  get_title_and_anchor fs' file_path false = (page_title, page_anchor) ->
  problematic_title page_title = false ->
  is_aggregator_page fs' file_path = true ->
  process_page (S fuel) file_path master_key lvl st
  = Some (mkState (nav_lines st ++ map render entries) (visited st) fs'
                  (calls st ++ [(file_path, master_key)]))
  /\ Forall (fun e => target e = alias /\ target e <> Path.to_str xref) entries
  /\ Forall (fun inc =>
               depth (child_entry fs' alias lvl inc)
               = Z.max 1 (Z.min (lvl + 1) MAX_NAV_DEPTH)
               /\ title (child_entry fs' alias lvl inc)
                  = fst (get_title_and_anchor fs' inc false)
               /\ anchor (child_entry fs' alias lvl inc)
                  = snd (get_title_and_anchor fs' inc false)) children.
Proof.
  intros fs' children entries Hrel Hal Ht Hp Hagg.
  split; [|split].
  - cbn [process_page]. rewrite Hrel, Hal. cbn [apply_alias]. proj_state.
    fold fs'. rewrite Ht, Hp. proj_state. rewrite Hagg.
    cbn [andb]. rewrite bool_decide_eq_true_2 by eauto.
    unfold process_aggregator_children_as_alias_sections, set_nav. proj_state.
    rewrite alias_children_fold. unfold add_entry. rewrite <- app_assoc. reflexivity.
  - pose proof (alias_differs _ _ _ Hal) as Hne.
    unfold entries. apply List.Forall_cons; [split; [reflexivity | exact Hne]|].
    apply List.Forall_forall. intros e He. apply List.in_map_iff in He as (inc & <- & _).
    split; [reflexivity | exact Hne].
  - apply List.Forall_forall. intros inc _. unfold child_entry, entry_of, clamp_level.
    cbn [depth title anchor]. repeat split. unfold MAX_NAV_DEPTH. lia.
Qed.

(** ** Loops *)

Lemma for_each_rel {A : Type} (R : state -> state -> Prop)
  (body : A -> state -> option state) (l : list A) :
  (forall st, R st st) ->
  (forall a b c, R a b -> R b c -> R a c) ->
  (forall x st st', In x l -> body x st = Some st' -> R st st') ->
  forall st st', for_each body l st = Some st' -> R st st'.
Proof.
  intros Hrefl Htrans. induction l as [|x l IH]; intros Hbody st st' H.
  - injection H as <-. apply Hrefl.
  - cbn [for_each] in H. destruct (body x st) as [st1|] eqn:E; [|discriminate].
    apply Htrans with st1.
    + apply (Hbody x); [left; reflexivity | exact E].
    + apply IH; [|exact H]. intros y s s' Hy. apply Hbody. right. exact Hy.
Qed.

(** ** Depth of the entries *)

Lemma take_while_stars (n : nat) (rest : str) :
  head_outside is_star rest ->
  take_while is_star (replicate n "*"%char ++ rest) = replicate n "*"%char.
Proof.
  intros H. induction n as [|n IH]; cbn.
  - destruct rest as [|c rest]; [reflexivity|]. cbn in *. rewrite H. reflexivity.
  - rewrite IH. reflexivity.
Qed.

Lemma stars_render (e : NavEntry) : (0 <= depth e)%Z -> stars (render e) = depth e.
Proof.
  intros H. unfold stars, render, Py.times.
  destruct (Py.is_empty (anchor e));
    rewrite take_while_stars by reflexivity;
    rewrite length_replicate; apply Z2Nat.id, H.
Qed.

Lemma entry_line_render (e : NavEntry) :
  (1 <= depth e <= MAX_NAV_DEPTH)%Z -> entry_line (render e).
Proof.
  intros H. exists e. split; [reflexivity|]. split; [exact H|].
  apply stars_render. lia.
Qed.

Lemma entry_line_entry_of (lvl : Z) (xref t a : str) :
  entry_line (render (entry_of lvl xref t a)).
Proof.
  apply entry_line_render. cbn [depth entry_of]. unfold clamp_level, MAX_NAV_DEPTH. lia.
Qed.

Lemma book_line_render (xref t a : str) :
  book_line xref t a = render (mkNavEntry 1 xref a t).
Proof. unfold book_line, render. cbn [anchor]. destruct (Py.is_empty a); reflexivity. Qed.

Lemma nav_extends_refl (P : str -> Prop) (nav : list str) : nav_extends P nav nav.
Proof. exists []. split; [symmetry; apply app_nil_r | constructor]. Qed.

Lemma nav_extends_trans (P : str -> Prop) (a b c : list str) :
  nav_extends P a b -> nav_extends P b c -> nav_extends P a c.
Proof.
  intros (x & -> & Fx) (y & -> & Fy). exists (x ++ y).
  split; [symmetry; apply app_assoc | apply Forall_app; split; assumption].
Qed.

Lemma nav_extends_one (P : str -> Prop) (nav : list str) (line : str) :
  P line -> nav_extends P nav (nav ++ [line]).
Proof. intros H. exists [line]. split; [reflexivity | repeat constructor; exact H]. Qed.

Lemma nav_extends_weaken (P Q : str -> Prop) (a b : list str) :
  (forall l, P l -> Q l) -> nav_extends P a b -> nav_extends Q a b.
Proof.
  intros PQ (x & -> & Fx). exists x. split; [reflexivity|].
  eapply List.Forall_impl; [exact PQ | exact Fx].
Qed.

Lemma add_entry_extends (nav : list str) (lvl : Z) (xref t a : str) :
  nav_extends entry_line nav (add_entry nav lvl xref t a).
Proof. apply nav_extends_one, entry_line_entry_of. Qed.

Lemma section_step_extends (final t a : str) (lvl : Z) (nav : list str)
  (section : Z * str * str) :
  nav_extends entry_line nav (section_step final t a lvl nav section).
Proof.
  destruct section as [[level sa] stt]. unfold section_step.
  destruct (_ || _); [apply nav_extends_refl|].
  destruct (_ <=? _)%Z; [apply add_entry_extends | apply nav_extends_refl].
Qed.

Lemma sections_extend (final t a : str) (lvl : Z) (sections : list (Z * str * str))
  (nav : list str) :
  nav_extends entry_line nav (fold_left (section_step final t a lvl) sections nav).
Proof.
  revert nav. induction sections as [|s sections IH]; intros nav.
  - apply nav_extends_refl.
  - cbn [fold_left]. eapply nav_extends_trans; [apply section_step_extends | apply IH].
Qed.

Lemma alias_children_extend (fs : gmap path str) (file_path : path) (alias : str)
  (lvl : Z) (nav : list str) :
  nav_extends entry_line nav
    (process_aggregator_children_as_alias_sections fs file_path alias lvl nav).
Proof.
  unfold process_aggregator_children_as_alias_sections. rewrite alias_children_fold.
  eexists. split; [reflexivity|].
  apply List.Forall_forall. intros l Hl.
  apply List.in_map_iff in Hl as (e & <- & He).
  apply List.in_map_iff in He as (inc & <- & _).
  apply entry_line_entry_of.
Qed.

Lemma apply_alias_nav (created : option str) (x : str) (st : state) :
  nav_lines (apply_alias created x st) = nav_lines st.
Proof. destruct created; reflexivity. Qed.

Lemma apply_alias_visited (created : option str) (x : str) (st : state) :
  visited (apply_alias created x st) = visited st.
Proof. destruct created; reflexivity. Qed.

Lemma apply_alias_calls (created : option str) (x : str) (st : state) :
  calls (apply_alias created x st) = calls st.
Proof. destruct created; reflexivity. Qed.

(** Every line that a call of [process_page] adds is the line of an
    entry of depth 1 to 4. *)
Lemma process_page_extends (fuel : nat) :
  forall (file_path : path) (master_key : str) (lvl : Z) (st st' : state),
    process_page fuel file_path master_key lvl st = Some st' ->
    nav_extends entry_line (nav_lines st) (nav_lines st').
Proof.
  induction fuel as [|fuel IH]; intros file_path master_key lvl st st' H; [discriminate|].
  cbn [process_page] in H.
  destruct (Path.relative_to file_path PAGES_DIR) as [xref|].
  2: { injection H as <-. apply nav_extends_refl. }
  destruct (resolve_alias master_key (Path.to_str xref)) as [final created].
  pose proof (apply_alias_nav created (Path.to_str xref)
                (log_call (file_path, master_key) st)) as N1.
  set (st1 := apply_alias created (Path.to_str xref)
                (log_call (file_path, master_key) st)) in *.
  cbn [nav_lines log_call] in N1. rewrite <- N1. clearbody st1. clear N1.
  destruct (get_title_and_anchor (files st1) file_path false) as [t a].
  destruct (problematic_title t).
  { injection H as <-. apply nav_extends_refl. }
  proj_state.
  eapply nav_extends_trans; [apply (add_entry_extends _ lvl final t a)|].
  destruct (is_aggregator_page (files st1) file_path && _).
  { injection H as <-. proj_state. apply alias_children_extend. }
  eapply nav_extends_trans; [apply (sections_extend final t a lvl)|].
  destruct (is_aggregator_page (files st1) file_path).
  2: { injection H as <-. proj_state. apply nav_extends_refl. }
  apply (for_each_rel
           (fun s s' => nav_extends entry_line (nav_lines s) (nav_lines s'))) in H.
  - proj_state. exact H.
  - intros s. apply nav_extends_refl.
  - intros s1 s2 s3. apply nav_extends_trans.
  - intros inc s s' _ Hv. unfold visit_once in Hv.
    destruct (bool_decide _); [injection Hv as <-; apply nav_extends_refl|].
    apply IH in Hv. exact Hv.
Qed.

Lemma entry_line_nav_ok (l : str) : entry_line l -> nav_ok l.
Proof. intros H. right. exact H. Qed.

Lemma process_master_extends (fuel : nat) (master : str) (st st' : state) :
  process_master fuel master st = Some st' ->
  nav_extends nav_ok (nav_lines st) (nav_lines st').
Proof.
  unfold process_master. intros H.
  destruct (negb (exists_file (files st) (Path.joinpath PAGES_DIR master))).
  { injection H as <-. apply nav_extends_refl. }
  destruct (get_title_and_anchor (files st) _ true) as [bt ba].
  proj_state.
  destruct (for_each _ _ _) as [st1|] eqn:E; [|discriminate].
  apply (for_each_rel
           (fun s s' => nav_extends nav_ok (nav_lines s) (nav_lines s'))) in E.
  - proj_state.
    apply nav_extends_trans
      with (nav_lines st ++ [book_line (Path.to_str (Path.parts master)) bt ba]).
    { apply nav_extends_one. right. rewrite book_line_render.
      apply entry_line_render. cbn [depth]. unfold MAX_NAV_DEPTH. lia. }
    eapply nav_extends_trans; [exact E|].
    destruct (negb (Py.str_eqb master last_master)); injection H as <-; proj_state.
    + apply nav_extends_one. left. reflexivity.
    + apply nav_extends_refl.
  - intros s. apply nav_extends_refl.
  - intros s1 s2 s3. apply nav_extends_trans.
  - intros inc s s' _ Hv. unfold visit_once in Hv.
    destruct (bool_decide _); [injection Hv as <-; apply nav_extends_refl|].
    apply process_page_extends in Hv. proj_state.
    eapply nav_extends_weaken; [apply entry_line_nav_ok | exact Hv].
Qed.

Lemma main_nav_ok (fuel : nat) (fs : gmap path str) (st : state) :
  main fuel fs = Some st -> Forall nav_ok (nav_lines st).
Proof.
  unfold main. intros H.
  destruct (for_each _ _ _) as [st1|] eqn:E; [|discriminate].
  injection H as <-. proj_state.
  apply (for_each_rel
           (fun s s' => nav_extends nav_ok (nav_lines s) (nav_lines s'))) in E.
  - proj_state. destruct E as (added & -> & F). exact F.
  - intros s. apply nav_extends_refl.
  - intros s1 s2 s3. apply nav_extends_trans.
  - intros m s s' _. apply process_master_extends.
Qed.

(** ** Sections beyond the maximum depth *)

Lemma scan_sections_level (lines : list str) (last_anchor : option str) :
  Forall (fun s => fst (fst s) = 3%Z) (scan_sections last_anchor lines).
Proof.
  revert last_anchor. induction lines as [|l lines IH]; intros la; [constructor|].
  cbn [scan_sections].
  destruct (is_anchor_line (Py.strip l)); [apply IH|].
  destruct (skippable (Py.strip l)); [apply IH|].
  destruct (match_heading (Py.strip l)) as [[level g]|]; [|apply IH].
  destruct (bool_decide (level ∈ ALLOWED_SECTION_LEVELS)) eqn:E.
  - apply bool_decide_eq_true in E. unfold ALLOWED_SECTION_LEVELS in E.
    apply list_elem_of_singleton in E. subst level.
    destruct (_ && _); [constructor; [reflexivity | apply IH] | apply IH].
  - rewrite andb_false_r. apply IH.
Qed.

Lemma sections_dropped (final t a : str) (lvl : Z) (sections : list (Z * str * str))
  (nav : list str) :
  (MAX_NAV_DEPTH < lvl + (3 - 2))%Z ->
  Forall (fun s => fst (fst s) = 3%Z) sections ->
  fold_left (section_step final t a lvl) sections nav = nav.
Proof.
  intros Hd F. induction F as [|[[level sa] stt] sections Hs _ IH]; [reflexivity|].
  cbn [fold_left]. cbn [fst] in Hs. subst level.
  unfold section_step at 2.
  destruct (_ || _); [exact IH|].
  destruct (Z.leb_spec (lvl + (3 - 2)) MAX_NAV_DEPTH); [lia | exact IH].
Qed.

(** C5: every line of the navigation that [main] ends with is an empty
    separator or the line of an entry that shows a depth between 1 and
    4, and so is every line that a call of [process_page] adds.  The
    section headings of a page are all of level 3, and when the depth
    computed for them, the page's depth plus (3 - 2), is beyond the
    maximum, the loop over them adds no line at all. *)
Theorem nav_depth_bounds (fuel fuel1 : nat) (fs fs2 : gmap path str) (st st1 st1' : state)
  (file_path file1 : path) (master_key final page_title page_anchor : str)
  (lvl lvl1 : Z) (nav : list str) :
  main fuel fs = Some st ->
  process_page fuel1 file1 master_key lvl1 st1 = Some st1' ->
  (MAX_NAV_DEPTH < lvl + (3 - 2))%Z ->
  Forall nav_ok (nav_lines st)
  /\ nav_extends entry_line (nav_lines st1) (nav_lines st1')
  /\ Forall (fun s => fst (fst s) = 3%Z) (extract_section_headings fs2 file_path)
  /\ fold_left (section_step final page_title page_anchor lvl)
               (extract_section_headings fs2 file_path) nav = nav.
Proof.
  intros Hmain Hpage Hdeep. repeat split.
  - apply (main_nav_ok _ _ _ Hmain).
  - apply (process_page_extends _ _ _ _ _ _ Hpage).
  - apply scan_sections_level.
  - apply sections_dropped; [exact Hdeep | apply scan_sections_level].
Qed.

(** ** Termination *)

Lemma included_exists (fs : gmap path str) (file_path inc : path) :
  In inc (extract_include_files fs file_path) -> inc ∈ dom fs.
Proof.
  unfold extract_include_files. intros H.
  apply List.in_flat_map in H as (line & _ & H).
  unfold include_of_line in H.
  destruct (search_include line); [|contradiction].
  destruct (Path.in_parents _ _); [contradiction|].
  destruct (negb (exists_file fs _)) eqn:E; [contradiction|].
  destruct H as [<-|[]].
  apply negb_false_iff in E. unfold exists_file in E.
  apply bool_decide_eq_true in E. apply elem_of_dom. exact E.
Qed.

Lemma stub_in_stub_paths (master_key x alias : str) :
  resolve_alias master_key x = (alias, Some alias) -> stub_path alias ∈ stub_paths.
Proof.
  intros H. unfold stub_paths.
  destruct (resolve_alias_cases _ _ _ H) as [[_ ->]|[_ ->]];
    [apply elem_of_union_l | apply elem_of_union_r]; apply elem_of_singleton; reflexivity.
Qed.

Lemma apply_alias_dom (U : gset path) (master_key x final : str)
  (created : option str) (st : state) :
  stub_paths ⊆ U -> dom (files st) ⊆ U ->
  resolve_alias master_key x = (final, created) ->
  dom (files (apply_alias created x st)) ⊆ U.
Proof.
  intros HU Hd Hal.
  destruct (resolve_alias_shape _ _ _ _ Hal) as [->|[-> _]]; [|exact Hd].
  cbn [apply_alias]. proj_state. unfold create_alias_file. rewrite dom_insert.
  pose proof (stub_in_stub_paths _ _ _ Hal) as Hs. unfold stub_path in Hs.
  intros q Hq. apply elem_of_union in Hq as [Hq|Hq]; [|apply Hd, Hq].
  apply elem_of_singleton in Hq. subst q. apply HU, Hs.
Qed.

Lemma unvisited_shrinks (U : gset path) (master_key : str) (V : gset (path * str))
  (p : path) :
  p ∈ U -> (p, master_key) ∉ V ->
  size (unvisited U master_key ({[ (p, master_key) ]} ∪ V))
  < size (unvisited U master_key V).
Proof.
  intros Hp Hv. apply subset_size. unfold unvisited.
  apply elem_of_subset. split.
  - intros q. rewrite !elem_of_filter. intros [H1 H2]. split; [|exact H2].
    intros H. apply H1, elem_of_union_r, H.
  - intros H. specialize (H p). rewrite !elem_of_filter in H.
    destruct (H (conj Hv Hp)) as [H1 _].
    apply H1, elem_of_union_l, elem_of_singleton. reflexivity.
Qed.

Lemma unvisited_mono (U : gset path) (master_key : str) (V V' : gset (path * str)) :
  V ⊆ V' -> size (unvisited U master_key V') <= size (unvisited U master_key V).
Proof.
  intros H. apply subseteq_size. unfold unvisited.
  intros q. rewrite !elem_of_filter. intros [H1 H2]. split; [|exact H2].
  intros Hq. apply H1, H, Hq.
Qed.

Lemma unvisited_bound (U : gset path) (master_key : str) (V : gset (path * str)) :
  size (unvisited U master_key V) <= size U.
Proof.
  apply subseteq_size. unfold unvisited. intros q. rewrite elem_of_filter. tauto.
Qed.

(** The loop over the includes, when each call it makes returns. *)
Lemma visit_loop_returns (U : gset path) (master_key : str)
  (recurse : path -> state -> option state) (n : nat) :
  (forall inc st,
      dom (files st) ⊆ U -> size (unvisited U master_key (visited st)) < n ->
      exists st', recurse inc st = Some st'
                  /\ dom (files st') ⊆ U /\ visited st ⊆ visited st') ->
  forall (incs : list path) (st : state),
    (forall inc, In inc incs -> inc ∈ U) ->
    dom (files st) ⊆ U -> size (unvisited U master_key (visited st)) <= n ->
    exists st', for_each (visit_once recurse master_key) incs st = Some st'
                /\ dom (files st') ⊆ U /\ visited st ⊆ visited st'.
Proof.
  intros Hrec. induction incs as [|inc incs IH]; intros st Hin Hd Hn.
  - exists st. repeat split; [exact Hd | reflexivity].
  - cbn [for_each]. unfold visit_once at 1.
    destruct (bool_decide ((inc, master_key) ∈ visited st)) eqn:E.
    + apply IH; [|exact Hd|exact Hn]. intros i Hi. apply Hin. right. exact Hi.
    + apply bool_decide_eq_false in E.
      assert (HincU : inc ∈ U) by (apply Hin; left; reflexivity).
      pose proof (unvisited_shrinks U master_key (visited st) inc HincU E) as Hlt.
      destruct (Hrec inc (add_visited (inc, master_key) st)) as (st1 & -> & Hd1 & Hv1).
      { proj_state. exact Hd. }
      { proj_state. lia. }
      proj_state.
      destruct (IH st1) as (st' & Hrun & Hd' & Hv').
      { intros i Hi. apply Hin. right. exact Hi. }
      { exact Hd1. }
      { pose proof (unvisited_mono U master_key _ _ Hv1). lia. }
      exists st'. repeat split; [exact Hrun | exact Hd' |].
      intros k Hk. apply Hv', Hv1, elem_of_union_r, Hk.
Qed.

Lemma process_page_returns (U : gset path) (fuel : nat) :
  stub_paths ⊆ U ->
  forall (file_path : path) (master_key : str) (lvl : Z) (st : state),
    dom (files st) ⊆ U ->
    size (unvisited U master_key (visited st)) < fuel ->
    exists st', process_page fuel file_path master_key lvl st = Some st'
                /\ dom (files st') ⊆ U /\ visited st ⊆ visited st'.
Proof.
  intros HU. induction fuel as [|fuel IH]; intros file_path master_key lvl st Hd Hn; [lia|].
  cbn [process_page].
  destruct (Path.relative_to file_path PAGES_DIR) as [xref|].
  2: { eexists. split; [reflexivity|]. proj_state. split; [exact Hd | reflexivity]. }
  destruct (resolve_alias master_key (Path.to_str xref)) as [final created] eqn:Hal.
  pose proof (apply_alias_dom U _ _ _ _ (log_call (file_path, master_key) st) HU Hd Hal)
    as Hd1.
  pose proof (apply_alias_visited created (Path.to_str xref)
                (log_call (file_path, master_key) st)) as Hv1.
  set (st1 := apply_alias created (Path.to_str xref)
                (log_call (file_path, master_key) st)) in *.
  cbn [visited log_call] in Hv1. clearbody st1.
  destruct (get_title_and_anchor (files st1) file_path false) as [t a].
  destruct (problematic_title t).
  { exists st1. rewrite Hv1. repeat split; [exact Hd1 | reflexivity]. }
  proj_state.
  destruct (is_aggregator_page (files st1) file_path && _).
  { eexists. split; [reflexivity|]. proj_state. rewrite Hv1.
    split; [exact Hd1 | reflexivity]. }
  destruct (is_aggregator_page (files st1) file_path).
  2: { eexists. split; [reflexivity|]. proj_state. rewrite Hv1.
       split; [exact Hd1 | reflexivity]. }
  match goal with
  | |- exists st', for_each _ ?incs ?s = _ /\ _ =>
      destruct (visit_loop_returns U master_key
                  (fun inc st' =>
                     process_page fuel inc master_key
                                  (Z.min (lvl + 1) MAX_NAV_DEPTH) st')
                  fuel (fun inc s' => IH inc master_key _ s') incs s)
        as (st' & Hrun & Hd' & Hv')
  end.
  - intros inc Hinc. apply Hd1. apply (included_exists _ _ _ Hinc).
  - proj_state. exact Hd1.
  - proj_state. rewrite Hv1. lia.
  - exists st'. proj_state. rewrite Hv1 in Hv'. auto.
Qed.

Lemma for_each_returns {A : Type} (I : state -> Prop)
  (body : A -> state -> option state) (l : list A) :
  (forall x st, In x l -> I st -> exists st', body x st = Some st' /\ I st') ->
  forall st, I st -> exists st', for_each body l st = Some st' /\ I st'.
Proof.
  induction l as [|x l IH]; intros Hbody st Hst.
  - exists st. split; [reflexivity | exact Hst].
  - cbn [for_each].
    destruct (Hbody x st) as (st1 & -> & H1); [left; reflexivity | exact Hst |].
    apply IH; [|exact H1]. intros y s Hy. apply Hbody. right. exact Hy.
Qed.

Lemma process_master_returns (U : gset path) (fuel : nat) (master : str) (st : state) :
  stub_paths ⊆ U -> size U <= fuel -> dom (files st) ⊆ U ->
  exists st', process_master fuel master st = Some st' /\ dom (files st') ⊆ U.
Proof.
  intros HU Hn Hd. unfold process_master.
  destruct (negb (exists_file (files st) (Path.joinpath PAGES_DIR master))).
  { exists st. split; [reflexivity | exact Hd]. }
  destruct (get_title_and_anchor (files st) _ true) as [bt ba].
  proj_state.
  match goal with
  | |- context [for_each (visit_once ?rec ?mk) ?incs ?s] =>
      destruct (visit_loop_returns U mk rec fuel
                  (fun inc s' => process_page_returns U fuel HU inc mk 2 s') incs s)
        as (st1 & -> & Hd1 & _)
  end.
  - intros inc Hinc. apply Hd. apply (included_exists _ _ _ Hinc).
  - proj_state. exact Hd.
  - pose proof (unvisited_bound U (Path.to_str (Path.parts master))
                  (visited st)). proj_state. lia.
  - destruct (negb _); eexists; (split; [reflexivity|]); proj_state; exact Hd1.
Qed.

Lemma stub_paths_size : size stub_paths <= 2.
Proof.
  unfold stub_paths. rewrite size_union_alt, size_singleton.
  pose proof (subseteq_size ({[stub_path intro_alias]} ∖ {[stub_path book_alias]})
                ({[stub_path intro_alias]} : gset path)) as H.
  rewrite size_singleton in H.
  assert (S : ({[stub_path intro_alias]} ∖ {[stub_path book_alias]} : gset path)
              ⊆ {[stub_path intro_alias]}).
  { intros q Hq. apply elem_of_difference in Hq as [Hq _]. exact Hq. }
  specialize (H S). lia.
Qed.

Lemma main_returns (fuel : nat) (fs : gmap path str) :
  size fs + 2 <= fuel -> exists st, main fuel fs = Some st.
Proof.
  intros Hn. unfold main.
  set (U := dom fs ∪ stub_paths).
  assert (HU : stub_paths ⊆ U) by apply union_subseteq_r.
  assert (Hsize : size U <= fuel).
  { unfold U. rewrite size_union_alt, size_dom.
    pose proof (subseteq_size (stub_paths ∖ dom fs) stub_paths) as H.
    assert (S : stub_paths ∖ dom fs ⊆ stub_paths).
    { intros q Hq. apply elem_of_difference in Hq as [Hq _]. exact Hq. }
    specialize (H S). pose proof stub_paths_size. lia. }
  destruct (for_each_returns (fun s => dom (files s) ⊆ U) (process_master fuel)
              MASTER_FILES) with (st := mkState [] ∅ fs []) as (st & -> & _).
  - intros m s _ Hs. apply process_master_returns; assumption.
  - proj_state. apply union_subseteq_l.
  - eexists. reflexivity.
Qed.

(** ** Each pair is expanded once *)

Lemma for_each_inv {A : Type} (I : state -> Prop)
  (body : A -> state -> option state) (l : list A) :
  (forall x st st', I st -> body x st = Some st' -> I st') ->
  forall st st', I st -> for_each body l st = Some st' -> I st'.
Proof.
  intros Hbody. induction l as [|x l IH]; intros st st' Hst H.
  - injection H as <-. exact Hst.
  - cbn [for_each] in H. destruct (body x st) as [st1|] eqn:E; [|discriminate].
    apply (IH st1); [|exact H]. apply (Hbody x st); assumption.
Qed.

Lemma calls_once_same (st st' : state) :
  calls st' = calls st -> visited st ⊆ visited st' -> calls_once st -> calls_once st'.
Proof.
  intros Hc Hv [Hn Hin]. unfold calls_once. rewrite Hc.
  split; [exact Hn|]. intros key Hk. apply Hv, Hin, Hk.
Qed.

Lemma calls_once_log (st st' : state) (key : path * str) :
  calls st' = calls st ++ [key] -> visited st' = visited st ->
  key ∈ visited st -> key ∉ calls st -> calls_once st -> calls_once st'.
Proof.
  intros Hc Hv Hkey Hnew [Hn Hin]. unfold calls_once. rewrite Hc, Hv. split.
  - apply NoDup_app. split; [exact Hn|]. split.
    + intros k Hk Hk'. apply list_elem_of_singleton in Hk'. subst k. exact (Hnew Hk).
    + apply NoDup_singleton.
  - intros k Hk. apply elem_of_app in Hk as [Hk|Hk]; [apply Hin, Hk|].
    apply list_elem_of_singleton in Hk. subst k. exact Hkey.
Qed.

(** The guard keeps the calls apart: a call made through it is for a
    pair that was not visited, so not called, before. *)
Lemma visit_once_calls (recurse : path -> state -> option state) (master_key : str)
  (st0 : state) :
  (forall inc st st',
      calls_once st -> (inc, master_key) ∈ visited st -> (inc, master_key) ∉ calls st ->
      recurse inc st = Some st' -> calls_once st' /\ visited st ⊆ visited st') ->
  forall inc st st',
    calls_once st /\ visited st0 ⊆ visited st ->
    visit_once recurse master_key inc st = Some st' ->
    calls_once st' /\ visited st0 ⊆ visited st'.
Proof.
  intros Hrec inc st st' [Hc Hv] H. unfold visit_once in H.
  destruct (bool_decide ((inc, master_key) ∈ visited st)) eqn:E.
  - injection H as <-. auto.
  - apply bool_decide_eq_false in E.
    apply Hrec in H.
    + destruct H as [Hc' Hv']. split; [exact Hc'|].
      proj_state. intros k Hk. apply Hv', elem_of_union_r, Hv, Hk.
    + apply (calls_once_same st);
        [reflexivity | proj_state; apply union_subseteq_r | exact Hc].
    + proj_state. apply elem_of_union_l, elem_of_singleton. reflexivity.
    + proj_state. intros Hk. apply E. destruct Hc as [_ Hin]. apply Hin, Hk.
Qed.

Lemma process_page_calls_once (fuel : nat) :
  forall (file_path : path) (master_key : str) (lvl : Z) (st st' : state),
    calls_once st -> (file_path, master_key) ∈ visited st ->
    (file_path, master_key) ∉ calls st ->
    process_page fuel file_path master_key lvl st = Some st' ->
    calls_once st' /\ visited st ⊆ visited st'.
Proof.
  induction fuel as [|fuel IH]; intros file_path master_key lvl st st' Hc Hk Hnew H;
    [discriminate|].
  cbn [process_page] in H.
  assert (Hlog : calls_once (log_call (file_path, master_key) st)).
  { apply (calls_once_log st _ (file_path, master_key)); auto. }
  destruct (Path.relative_to file_path PAGES_DIR) as [xref|].
  2: { injection H as <-. split; [exact Hlog | reflexivity]. }
  destruct (resolve_alias master_key (Path.to_str xref)) as [final created].
  pose proof (apply_alias_visited created (Path.to_str xref)
                (log_call (file_path, master_key) st)) as Hv1.
  pose proof (apply_alias_calls created (Path.to_str xref)
                (log_call (file_path, master_key) st)) as Hc1.
  set (st1 := apply_alias created (Path.to_str xref)
                (log_call (file_path, master_key) st)) in *.
  assert (Hst1 : calls_once st1).
  { apply (calls_once_same (log_call (file_path, master_key) st));
      [exact Hc1 | rewrite Hv1; reflexivity | exact Hlog]. }
  cbn [visited log_call] in Hv1. clearbody st1. clear Hc1 Hlog.
  destruct (get_title_and_anchor (files st1) file_path false) as [t a].
  destruct (problematic_title t).
  { injection H as <-. rewrite Hv1. split; [exact Hst1 | reflexivity]. }
  proj_state.
  destruct (is_aggregator_page (files st1) file_path && _).
  { injection H as <-. proj_state. rewrite Hv1.
    split; [|reflexivity]. apply (calls_once_same st1); [reflexivity.. | exact Hst1]. }
  destruct (is_aggregator_page (files st1) file_path).
  2: { injection H as <-. proj_state. rewrite Hv1.
       split; [|reflexivity]. apply (calls_once_same st1); [reflexivity.. | exact Hst1]. }
  rewrite <- Hv1.
  eapply (for_each_inv (fun s => calls_once s /\ visited st1 ⊆ visited s)) in H.
  - exact H.
  - apply visit_once_calls. intros inc s s'. apply IH.
  - proj_state. split; [|reflexivity].
    apply (calls_once_same st1); [reflexivity.. | exact Hst1].
Qed.

Lemma process_master_calls_once (fuel : nat) (master : str) (st st' : state) :
  calls_once st -> process_master fuel master st = Some st' -> calls_once st'.
Proof.
  intros Hc H. unfold process_master in H.
  destruct (negb (exists_file (files st) (Path.joinpath PAGES_DIR master))).
  { injection H as <-. exact Hc. }
  destruct (get_title_and_anchor (files st) _ true) as [bt ba].
  proj_state.
  destruct (for_each _ _ _) as [st1|] eqn:E; [|discriminate].
  eapply (for_each_inv (fun s => calls_once s /\ visited st ⊆ visited s)) in E.
  - destruct E as [E _].
    destruct (negb _); injection H as <-;
      [apply (calls_once_same st1); [reflexivity.. | exact E] | exact E].
  - apply visit_once_calls. intros inc s s'. apply process_page_calls_once.
  - proj_state. split; [|reflexivity].
    apply (calls_once_same st); [reflexivity.. | exact Hc].
Qed.

Lemma main_calls_once (fuel : nat) (fs : gmap path str) (st : state) :
  main fuel fs = Some st -> NoDup (calls st).
Proof.
  unfold main. intros H.
  destruct (for_each _ _ _) as [st1|] eqn:E; [|discriminate].
  injection H as <-. proj_state.
  apply (for_each_inv calls_once) in E.
  - destruct E as [E _]. exact E.
  - intros m s s' Hs. apply process_master_calls_once, Hs.
  - split; [apply NoDup_nil_2 | intros key Hk; inversion Hk].
Qed.

(** ** More fuel changes nothing *)

Lemma for_each_mono {A : Type} (body body' : A -> state -> option state) (l : list A) :
  (forall x st st', body x st = Some st' -> body' x st = Some st') ->
  forall st st', for_each body l st = Some st' -> for_each body' l st = Some st'.
Proof.
  intros Hb. induction l as [|x l IH]; intros st st' H; [exact H|].
  cbn [for_each] in *. destruct (body x st) as [st1|] eqn:E; [|discriminate].
  rewrite (Hb _ _ _ E). apply IH, H.
Qed.

Lemma visit_once_mono (recurse recurse' : path -> state -> option state)
  (master_key : str) :
  (forall inc st st', recurse inc st = Some st' -> recurse' inc st = Some st') ->
  forall inc st st',
    visit_once recurse master_key inc st = Some st' ->
    visit_once recurse' master_key inc st = Some st'.
Proof.
  intros Hr inc st st'. unfold visit_once.
  destruct (bool_decide _); [auto | apply Hr].
Qed.

Lemma process_page_fuel_mono (fuel : nat) :
  forall (fuel' : nat) (file_path : path) (master_key : str) (lvl : Z) (st st' : state),
    fuel <= fuel' ->
    process_page fuel file_path master_key lvl st = Some st' ->
    process_page fuel' file_path master_key lvl st = Some st'.
Proof.
  induction fuel as [|fuel IH]; intros fuel' file_path master_key lvl st st' Hle H;
    [discriminate|].
  destruct fuel' as [|fuel']; [lia|].
  cbn [process_page] in *.
  destruct (Path.relative_to file_path PAGES_DIR) as [xref|]; [|exact H].
  destruct (resolve_alias master_key (Path.to_str xref)) as [final created].
  destruct (get_title_and_anchor _ file_path false) as [t a].
  destruct (problematic_title t); [exact H|].
  destruct (is_aggregator_page _ file_path && _); [exact H|].
  destruct (is_aggregator_page _ file_path); [|exact H].
  revert H. apply for_each_mono, visit_once_mono.
  intros inc s s'. apply IH. lia.
Qed.

Lemma process_master_fuel_mono (fuel fuel' : nat) (master : str) (st st' : state) :
  fuel <= fuel' ->
  process_master fuel master st = Some st' -> process_master fuel' master st = Some st'.
Proof.
  intros Hle. unfold process_master.
  destruct (negb (exists_file _ _)); [auto|].
  destruct (get_title_and_anchor _ _ true) as [bt ba].
  destruct (for_each _ _ _) as [st1|] eqn:E; [|discriminate].
  eapply for_each_mono in E.
  - rewrite E. auto.
  - apply visit_once_mono. intros inc s s'. apply process_page_fuel_mono, Hle.
Qed.

Lemma main_fuel_mono (fuel fuel' : nat) (fs : gmap path str) (st : state) :
  fuel <= fuel' -> main fuel fs = Some st -> main fuel' fs = Some st.
Proof.
  intros Hle. unfold main.
  destruct (for_each (process_master fuel) _ _) as [st1|] eqn:E; [|discriminate].
  eapply for_each_mono in E.
  - rewrite E. auto.
  - intros m s s'. apply process_master_fuel_mono, Hle.
Qed.

(** C6: on every finite set of files, whatever the includes between
    them, cycles too, the run ends: with fuel for the number of files
    and the two stubs [main] returns, and more fuel gives the same
    state.  In that run no pair of a file and a master was given to
    [process_page] twice. *)
Theorem each_pair_expanded_once (fuel : nat) (fs : gmap path str) :
  size fs + 2 <= fuel ->
  exists st : state,
    main fuel fs = Some st
    /\ NoDup (calls st)
    /\ forall fuel', fuel <= fuel' -> main fuel' fs = Some st.
Proof.
  intros Hn. destruct (main_returns fuel fs Hn) as [st Hst].
  exists st. split; [exact Hst|]. split.
  - apply (main_calls_once _ _ _ Hst).
  - intros fuel' Hle. apply (main_fuel_mono _ _ _ _ Hle Hst).
Qed.

(** * Further properties of the generator *)

(** ** What a derived anchor looks like *)

Lemma squeezed_no_pair (p : ascii -> bool) (b : bool) (pre post : str) (x y : ascii) :
  p x = true -> p y = true -> ~ squeezed p b (pre ++ x :: y :: post).
Proof.
  intros Hx Hy H. apply squeezed_suffix in H. cbn [squeezed] in H.
  rewrite Hx, Hy in H. destruct H as [_ [H _]]. discriminate H.
Qed.

Lemma startswith_hyphen (s : str) :
  head_outside Char.is_hyphen s -> Py.startswith "-" s = false.
Proof.
  destruct s as [|c s]; [reflexivity|]. intros H.
  cbn [head_outside] in H. unfold Char.is_hyphen, Char.eqb, Char.hyphen in H.
  change (Py.startswith "-" (c :: s)) with (Ascii.eqb "-" c && true).
  rewrite Ascii.eqb_sym, H. reflexivity.
Qed.

(** X1: an anchor derived from a title is made of word characters and
    hyphens only, is in lower case, has no two hyphens in a row and no
    hyphen at either end; so it holds no white space and no
    punctuation. *)
Theorem derived_anchor_shape (title : str) :
  let a := make_anchor_from_title title in
  Forall (fun c => Char.is_word c = true \/ c = Char.hyphen) a
  /\ Forall (fun c => Char.is_space c = false) a
  /\ Py.lower a = a
  /\ (forall pre post : str, a <> pre ++ "--" ++ post)
  /\ Py.startswith "-" a = false
  /\ Py.endswith "-" a = false.
Proof.
  cbv zeta. destruct (make_anchor_slugged title) as (F & Sq & H1 & H2).
  repeat split.
  - eapply List.Forall_impl; [|exact F].
    intros c [[H|H] _]; [left; exact H | right; apply is_hyphen_eq, H].
  - eapply List.Forall_impl; [|exact F]. apply slug_char_not_space.
  - apply lower_fixed. eapply List.Forall_impl; [|exact F]. intros c [_ H]. exact H.
  - intros pre post E. rewrite E in Sq.
    apply (squeezed_no_pair Char.is_hyphen false pre post "-" "-" eq_refl eq_refl Sq).
  - apply startswith_hyphen, H1.
  - unfold Py.endswith. apply startswith_hyphen, H2.
Qed.

Lemma lower_keeps_word (c : ascii) : Char.is_word (Char.lower c) = Char.is_word c.
Proof. each_char c. Qed.

Lemma word_not_hyphen (c : ascii) : Char.is_word c = true -> Char.is_hyphen c = false.
Proof. each_char c. Qed.

Lemma In_drop_while (p : ascii -> bool) (c : ascii) (s : str) :
  In c s -> p c = false -> In c (Py.drop_while p s).
Proof.
  intros Hin Hc. induction s as [|d s IH]; [contradiction|].
  cbn [Py.drop_while]. destruct (p d) eqn:E; [|exact Hin].
  destruct Hin as [->|Hin]; [congruence | apply IH, Hin].
Qed.

Lemma In_strip_with (p : ascii -> bool) (c : ascii) (s : str) :
  In c s -> p c = false -> In c (Py.strip_with p s).
Proof.
  intros Hin Hc. unfold Py.strip_with, Py.rstrip_with, Py.lstrip_with.
  apply (proj1 (List.in_rev _ _)). apply In_drop_while; [|exact Hc].
  apply (proj1 (List.in_rev _ _)). apply In_drop_while; assumption.
Qed.

Lemma In_squeeze (p : ascii -> bool) (r c : ascii) (b : bool) (s : str) :
  In c s -> p c = false -> In c (Py.squeeze p r b s).
Proof.
  intros Hin Hc. revert b. induction s as [|d s IH]; intros b; [contradiction|].
  cbn [Py.squeeze]. destruct Hin as [->|Hin].
  - rewrite Hc. left. reflexivity.
  - destruct (p d); [destruct b; [|right]|right]; apply IH, Hin.
Qed.

Lemma strip_with_all (p : ascii -> bool) (s : str) :
  Forall (fun c => p c = true) s -> Py.strip_with p s = [].
Proof.
  intros F. unfold Py.strip_with, Py.lstrip_with.
  assert (E : Py.drop_while p s = []).
  { induction F as [|c s Hc _ IH]; [reflexivity|]. cbn. rewrite Hc. exact IH. }
  rewrite E. reflexivity.
Qed.

(** X2: the derived anchor is empty exactly when the title has no word
    character; a title with one gives an anchor, and the entry then
    carries it. *)
Theorem derived_anchor_empty (title : str) :
  make_anchor_from_title title = [] <-> Forall (fun c => Char.is_word c = false) title.
Proof.
  split.
  - intros E. apply List.Forall_forall. intros c Hc.
    destruct (Char.is_word c) eqn:W; [|reflexivity]. exfalso.
    assert (Hin : In (Char.lower c) (make_anchor_from_title title)).
    { assert (W' : Char.is_word (Char.lower c) = true) by (rewrite lower_keeps_word; exact W).
      unfold make_anchor_from_title, Py.strip_chars.
      apply In_strip_with; [|rewrite one_of_hyphen; apply word_not_hyphen, W'].
      apply In_squeeze; [|apply word_not_hyphen, W'].
      apply In_squeeze; [|apply word_not_space, W'].
      apply List.filter_In. split.
      - unfold Py.lower. apply List.in_map. unfold Py.strip.
        apply In_strip_with; [exact Hc | apply word_not_space, W].
      - unfold keep_word_space_hyphen. rewrite W'. reflexivity. }
    rewrite E in Hin. exact Hin.
  - intros F. unfold make_anchor_from_title, Py.strip_chars.
    apply strip_with_all.
    eapply List.Forall_impl; [intros c Hc; rewrite one_of_hyphen; exact Hc|].
    apply squeeze_Forall; [reflexivity|].
    eapply List.Forall_impl; [intros c Hc _; exact Hc|].
    apply squeeze_Forall; [reflexivity|].
    apply List.Forall_forall. intros c Hc Hs.
    apply List.filter_In in Hc as [Hin Hk].
    unfold Py.lower in Hin. apply List.in_map_iff in Hin as (c0 & <- & Hin).
    assert (W : Char.is_word (Char.lower c0) = false).
    { rewrite lower_keeps_word.
      apply (proj1 (List.Forall_forall _ _) (Forall_strip_with _ _ _ F) c0 Hin). }
    unfold keep_word_space_hyphen in Hk. rewrite W, Hs in Hk. exact Hk.
Qed.

(** ** What [extract_include_files] returns *)

Lemma Forall_removelast {A : Type} (P : A -> Prop) (l : list A) :
  Forall P l -> Forall P (removelast l).
Proof.
  induction 1 as [|x l Hx F IH]; [constructor|].
  cbn [removelast]. destruct l; [constructor|]. constructor; assumption.
Qed.

Lemma resolve_fold_is_plain (p acc : path) :
  Forall plain acc -> Forall plain (fold_left Path.resolve_step p acc).
Proof.
  revert acc. induction p as [|c p IH]; intros acc F; [exact F|].
  cbn [fold_left]. apply IH. unfold Path.resolve_step.
  destruct (Py.str_eqb c Path.dotdot) eqn:E.
  - apply Forall_removelast, F.
  - apply Forall_app. split; [exact F|].
    constructor; [|constructor]. apply str_eqb_neq, E.
Qed.

Lemma resolve_is_plain (p : path) : Forall plain (Path.resolve p).
Proof. apply resolve_fold_is_plain. constructor. Qed.

Lemma include_of_line_spec (fs : gmap path str) (file_path : path) (line : str)
  (inc : path) :
  In inc (include_of_line fs file_path line) ->
  inc ∈ dom fs /\ Path.in_parents PARTIALS_DIR inc = false /\ Forall plain inc.
Proof.
  unfold include_of_line.
  destruct (search_include line); [|contradiction].
  destruct (Path.in_parents _ _) eqn:Ep; [contradiction|].
  destruct (negb (exists_file fs _)) eqn:E; [contradiction|].
  intros [<-|[]]. split; [|split; [exact Ep | apply resolve_is_plain]].
  apply negb_false_iff in E. unfold exists_file in E.
  apply bool_decide_eq_true in E. apply elem_of_dom. exact E.
Qed.

Lemma include_of_line_length (fs : gmap path str) (file_path : path) (line : str) :
  List.length (include_of_line fs file_path line) <= 1.
Proof.
  unfold include_of_line.
  destruct (search_include line); [|cbn; lia].
  destruct (Path.in_parents _ _); [cbn; lia|].
  destruct (negb _); cbn; lia.
Qed.

(** X3: every path that [extract_include_files] returns is an entry of
    the file system, is not below the partials directory, and is
    resolved (it has no [..] component); a line gives one include at
    most, so there are no more includes than lines. *)
Theorem included_files_spec (fs : gmap path str) (file_path : path) :
  Forall (fun inc => inc ∈ dom fs
                     /\ Path.in_parents PARTIALS_DIR inc = false
                     /\ Forall plain inc)
         (extract_include_files fs file_path)
  /\ List.length (extract_include_files fs file_path)
     <= List.length (read_text_lines fs file_path).
Proof.
  unfold extract_include_files. split.
  - apply List.Forall_forall. intros inc H.
    apply List.in_flat_map in H as (line & _ & H).
    apply (include_of_line_spec _ _ _ _ H).
  - induction (read_text_lines fs file_path) as [|line lines IH]; [reflexivity|].
    cbn [flat_map]. rewrite length_app. cbn [List.length].
    pose proof (include_of_line_length fs file_path line). lia.
Qed.

(** ** Titles in page-title mode *)

Lemma heading_title_not_empty (line g : str) (level : Z) :
  match_heading line = Some (level, g) -> Py.strip g <> [] /\ (1 <= level)%Z.
Proof.
  unfold match_heading.
  destruct (Py.is_empty (take_while is_equals line)) eqn:Em; [discriminate|].
  destruct (bool_decide _); [discriminate|].
  destruct (Py.is_empty (Py.drop_while Char.is_space _)) eqn:Er; [discriminate|].
  destruct (existsb _ _); [discriminate|].
  intros [= <- <-]. split.
  - pose proof (drop_while_head Char.is_space (Py.drop_while is_equals line)) as H.
    destruct (Py.drop_while Char.is_space (Py.drop_while is_equals line))
      as [|c rest] eqn:E; [discriminate|].
    cbn [head_outside] in H.
    assert (Hin : In c (Py.strip (c :: rest))).
    { apply In_strip_with; [left; reflexivity | exact H]. }
    intros E0. rewrite E0 in Hin. exact Hin.
  - destruct (take_while is_equals line); [discriminate|]. cbn [List.length]. lia.
Qed.

Lemma page_scan_title_not_empty (lines : list str) (a : str) :
  fst (page_scan a lines) <> [].
Proof.
  revert a. induction lines as [|l lines IH]; intros a; [discriminate|].
  cbn [page_scan].
  destruct (skippable (Py.strip l)); [apply IH|].
  destruct (is_anchor_line (Py.strip l)); [apply IH|].
  destruct (match_heading (Py.strip l)) as [[level g]|] eqn:E; [|apply IH].
  destruct (2 <=? level)%Z; [|apply IH].
  cbn [fst]. apply (heading_title_not_empty _ _ _ E).
Qed.

(** X4: in page-title mode the title returned is never empty: it is
    [Untitled] or the text of a heading, which has a character that is
    not white space.  So a page is skipped exactly when its title, in
    lower case, is [untitled]. *)
Theorem page_title_never_empty (fs : gmap path str) (file_path : path) :
  fst (get_title_and_anchor fs file_path false) <> []
  /\ (problematic_title (fst (get_title_and_anchor fs file_path false)) = true
      <-> Py.lower (fst (get_title_and_anchor fs file_path false)) = "untitled").
Proof.
  assert (N : fst (get_title_and_anchor fs file_path false) <> []).
  { unfold get_title_and_anchor. rewrite page_mode_scan. apply page_scan_title_not_empty. }
  split; [exact N|].
  unfold problematic_title.
  destruct (fst (get_title_and_anchor fs file_path false)) as [|c t]; [contradiction|].
  cbn [Py.is_empty orb]. apply str_eqb_eq.
Qed.

(** X5: in page-title mode the title is the text of the first heading
    of level 2 or more, whatever comes before it; with no anchor line
    before that heading the anchor is the one derived from the title. *)
Theorem page_title_is_first_heading (fs : gmap path str) (file_path : path)
  (pre post : list str) (h g : str) (level : Z) :
  read_text_lines fs file_path = pre ++ h :: post ->
  Forall no_page_heading pre ->
  Forall no_marker pre ->
  match_heading (Py.strip h) = Some (level, g) -> (2 <= level)%Z ->
  get_title_and_anchor fs file_path false
  = (Py.strip g, make_anchor_from_title (Py.strip g)).
Proof.
  intros E Fh Fm Hh Hl. unfold get_title_and_anchor.
  rewrite E, page_mode_scan, page_scan_skip by exact Fh.
  rewrite last_marker_none by exact Fm.
  rewrite (page_scan_heading _ _ _ _ _ Hh Hl). reflexivity.
Qed.

(** ** Section headings *)

Lemma scan_sections_titles (lines : list str) (last_anchor : option str) :
  Forall (fun s => fst (fst s) = 3%Z /\ snd s <> [] /\ Py.lower (snd s) ∉ IGNORE_TITLES)
         (scan_sections last_anchor lines).
Proof.
  revert last_anchor. induction lines as [|l lines IH]; intros la; [constructor|].
  cbn [scan_sections].
  destruct (is_anchor_line (Py.strip l)); [apply IH|].
  destruct (skippable (Py.strip l)); [apply IH|].
  destruct (match_heading (Py.strip l)) as [[level g]|] eqn:Hh; [|apply IH].
  destruct (negb (Py.is_empty (Py.strip g))
            && negb (bool_decide (Py.lower (Py.strip g) ∈ IGNORE_TITLES))
            && bool_decide (level ∈ ALLOWED_SECTION_LEVELS)) eqn:E; [|apply IH].
  apply andb_true_iff in E as [E E3]. apply andb_true_iff in E as [_ E2].
  constructor; [|apply IH]. cbn [fst snd]. split; [|split].
  - apply bool_decide_eq_true in E3. unfold ALLOWED_SECTION_LEVELS in E3.
    apply list_elem_of_singleton in E3. exact E3.
  - apply (heading_title_not_empty _ _ _ Hh).
  - apply negb_true_iff, bool_decide_eq_false in E2. exact E2.
Qed.

(** X7: every section heading that [extract_section_headings] returns
    is of level 3, has a title that is not empty, and that title in
    lower case is none of [IGNORE_TITLES]: a heading named
    [Description], [See Also] and the like never gets an entry. *)
Theorem section_headings_spec (fs : gmap path str) (file_path : path) :
  Forall (fun s => fst (fst s) = 3%Z /\ snd s <> [] /\ Py.lower (snd s) ∉ IGNORE_TITLES)
         (extract_section_headings fs file_path).
Proof. apply scan_sections_titles. Qed.

Lemma scan_sections_anchor_line (a : str) (rest : list str) (la : option str) :
  is_anchor_line (Py.strip a) = true ->
  scan_sections la (a :: rest) = scan_sections (Some (anchor_of_line (Py.strip a))) rest.
Proof. intros An. cbn [scan_sections]. rewrite An. reflexivity. Qed.

Lemma scan_sections_upto_anchor (pre rest : list str) (a : str) (la : option str) :
  is_anchor_line (Py.strip a) = true ->
  scan_sections la (pre ++ a :: rest)
  = scan_sections la pre ++ scan_sections (Some (anchor_of_line (Py.strip a))) rest.
Proof.
  intros An. revert la. induction pre as [|l pre IH]; intros la.
  - apply scan_sections_anchor_line, An.
  - cbn [app scan_sections].
    destruct (is_anchor_line (Py.strip l)); [apply IH|].
    destruct (skippable (Py.strip l)); [apply IH|].
    destruct (match_heading (Py.strip l)) as [[level g]|]; [|apply IH].
    destruct (_ && _); [cbn [app]; f_equal|]; apply IH.
Qed.

Lemma scan_sections_skippable (mid rest : list str) (la : option str) :
  Forall (fun l => skippable (Py.strip l) = true) mid ->
  scan_sections la (mid ++ rest) = scan_sections la rest.
Proof.
  induction 1 as [|l mid Hl _ IH]; [reflexivity|].
  cbn [app scan_sections]. rewrite (skippable_not_anchor _ Hl), Hl. exact IH.
Qed.

Lemma scan_sections_body (b : str) (rest : list str) (la : option str) :
  is_anchor_line (Py.strip b) = false -> skippable (Py.strip b) = false ->
  match_heading (Py.strip b) = None ->
  scan_sections la (b :: rest) = scan_sections None rest.
Proof. intros An Sk Hh. cbn [scan_sections]. rewrite An, Sk, Hh. reflexivity. Qed.

Lemma scan_sections_heading (h g : str) (post : list str) (la : option str) :
  match_heading (Py.strip h) = Some (3%Z, g) ->
  Py.lower (Py.strip g) ∉ IGNORE_TITLES ->
  scan_sections la (h :: post)
  = (3%Z, last_anchor_or_slug la (Py.strip g), Py.strip g) :: scan_sections None post.
Proof.
  intros Hh Hi. cbn [scan_sections].
  rewrite (heading_not_anchor _ _ Hh), (heading_not_skippable _ _ Hh), Hh.
  destruct (heading_title_not_empty _ _ _ Hh) as [Hne _].
  destruct (Py.strip g) as [|c t] eqn:E; [contradiction|].
  cbn [Py.is_empty negb andb].
  rewrite bool_decide_eq_false_2 by exact Hi.
  rewrite bool_decide_eq_true_2; [reflexivity|].
  unfold ALLOWED_SECTION_LEVELS. apply list_elem_of_singleton. reflexivity.
Qed.

(** X8: for a section heading an anchor line counts only when nothing
    but skippable lines stand between it and the heading: then the
    heading takes its id.  One body line in between and the id is
    dropped, the heading gets the anchor derived from its title.  (In
    page-title mode the id stays pending, see C9.) *)
Theorem section_anchor_scope (fs : gmap path str) (kept_file dropped_file : path)
  (pre mid post : list str) (a b h g : str) :
  is_anchor_line (Py.strip a) = true ->
  anchor_of_line (Py.strip a) <> [] ->
  Forall (fun l => skippable (Py.strip l) = true) mid ->
  is_anchor_line (Py.strip b) = false -> skippable (Py.strip b) = false ->
  match_heading (Py.strip b) = None ->
  match_heading (Py.strip h) = Some (3%Z, g) ->
  Py.lower (Py.strip g) ∉ IGNORE_TITLES ->
  read_text_lines fs kept_file = pre ++ a :: mid ++ h :: post ->
  read_text_lines fs dropped_file = pre ++ a :: b :: h :: post ->
  extract_section_headings fs kept_file
  = scan_sections None pre
    ++ (3%Z, anchor_of_line (Py.strip a), Py.strip g) :: scan_sections None post
  /\ extract_section_headings fs dropped_file
     = scan_sections None pre
       ++ (3%Z, make_anchor_from_title (Py.strip g), Py.strip g)
            :: scan_sections None post.
Proof.
  intros An Id Fmid Bn Bs Bh Hh Hi E1 E2. unfold extract_section_headings. split.
  - rewrite E1, (scan_sections_upto_anchor _ _ _ _ An).
    rewrite (scan_sections_skippable _ _ _ Fmid), (scan_sections_heading _ _ _ _ Hh Hi).
    cbn [last_anchor_or_slug].
    destruct (anchor_of_line (Py.strip a)); [contradiction | reflexivity].
  - rewrite E2, (scan_sections_upto_anchor _ _ _ _ An).
    rewrite (scan_sections_body _ _ _ Bn Bs Bh), (scan_sections_heading _ _ _ _ Hh Hi).
    reflexivity.
Qed.

(** ** Aggregator pages *)

Lemma take_drop_while (p : ascii -> bool) (s : str) :
  s = take_while p s ++ Py.drop_while p s.
Proof.
  induction s as [|c s IH]; [reflexivity|].
  cbn [take_while Py.drop_while]. destruct (p c); [|reflexivity].
  cbn [app]. f_equal. exact IH.
Qed.

Lemma take_while_all (p : ascii -> bool) (s : str) :
  Forall (fun c => p c = true) (take_while p s).
Proof.
  induction s as [|c s IH]; [constructor|].
  cbn [take_while]. destruct (p c) eqn:E; constructor; assumption.
Qed.

Lemma is_equals_eq (c : ascii) : is_equals c = true -> c = "="%char.
Proof. unfold is_equals, Char.eqb. apply Ascii.eqb_eq. Qed.

Lemma level3_heading_prefix (line g : str) :
  match_heading line = Some (3%Z, g) -> match_level3_prefix line = true.
Proof.
  unfold match_heading.
  destruct (Py.is_empty (take_while is_equals line)); [discriminate|].
  destruct (bool_decide _) eqn:Ew; [discriminate|].
  destruct (Py.is_empty _); [discriminate|].
  destruct (existsb _ _); [discriminate|].
  intros [= L _]. apply bool_decide_eq_false in Ew.
  pose proof (take_while_all is_equals line) as F.
  pose proof (take_drop_while is_equals line) as E.
  destruct (take_while is_equals line) as [|c1 [|c2 [|c3 [|c4 m]]]];
    cbn [List.length] in L; try lia.
  inversion F as [|? ? H1 F1]; subst. inversion F1 as [|? ? H2 F2]; subst.
  inversion F2 as [|? ? H3 _]; subst.
  apply is_equals_eq in H1, H2, H3. subst c1 c2 c3.
  rewrite E. unfold match_level3_prefix.
  destruct (Py.drop_while is_equals line) as [|c rest]; [contradiction Ew; reflexivity|].
  cbn. cbn [Py.drop_while] in Ew.
  destruct (Char.is_space c); [reflexivity | contradiction Ew; reflexivity].
Qed.

Lemma scan_sections_without_level3 (lines : list str) (la : option str) :
  forallb (fun line => negb (match_level3_prefix (Py.strip line))) lines = true ->
  scan_sections la lines = [].
Proof.
  revert la. induction lines as [|l lines IH]; intros la H; [reflexivity|].
  cbn [forallb] in H. apply andb_true_iff in H as [Hl H].
  cbn [scan_sections].
  destruct (is_anchor_line (Py.strip l)); [apply IH, H|].
  destruct (skippable (Py.strip l)); [apply IH, H|].
  destruct (match_heading (Py.strip l)) as [[level g]|] eqn:Hh; [|apply IH, H].
  destruct (bool_decide (level ∈ ALLOWED_SECTION_LEVELS)) eqn:E.
  - apply bool_decide_eq_true in E. unfold ALLOWED_SECTION_LEVELS in E.
    apply list_elem_of_singleton in E. subst level.
    rewrite (level3_heading_prefix _ _ Hh) in Hl. discriminate Hl.
  - rewrite andb_false_r. apply IH, H.
Qed.

(** X9: a page that [is_aggregator_page] accepts has an include and no
    section heading: [extract_section_headings] returns nothing for it,
    so such a page gets no section entries. *)
Theorem aggregator_has_no_sections (fs : gmap path str) (file_path : path) :
  is_aggregator_page fs file_path = true ->
  extract_include_files fs file_path <> []
  /\ extract_section_headings fs file_path = [].
Proof.
  unfold is_aggregator_page.
  destruct (extract_include_files fs file_path) as [|inc incs]; [discriminate|].
  intros H. split; [discriminate|]. apply scan_sections_without_level3, H.
Qed.

(** ** Where an alias applies *)

Lemma split_on_no_sep (sep : ascii) (s : str) :
  Forall (fun w => ~ In sep w) (Py.split_on sep s).
Proof.
  induction s as [|c s IH]; [repeat constructor; auto|].
  cbn [Py.split_on]. destruct (Char.eqb c sep) eqn:E.
  - constructor; [auto | exact IH].
  - destruct (Py.split_on sep s) as [|w ws]; [repeat constructor|].
    + intros [->|[]]. unfold Char.eqb in E. rewrite Ascii.eqb_refl in E. discriminate E.
    + inversion IH as [|? ? Hw Hws]; subst. constructor; [|exact Hws].
      intros [->|H]; [|exact (Hw H)].
      unfold Char.eqb in E. rewrite Ascii.eqb_refl in E. discriminate E.
Qed.

Lemma last_Forall {A : Type} (P : A -> Prop) (l : list A) (d : A) :
  P d -> Forall P l -> P (List.last l d).
Proof.
  intros Hd F. induction F as [|x l Hx F IH]; [exact Hd|].
  cbn [List.last]. destruct l; [exact Hx | exact IH].
Qed.

Lemma name_has_no_slash (s : str) : ~ In Path.slash (Path.name s).
Proof.
  unfold Path.name. apply last_Forall; [auto|].
  unfold Path.parts. apply List.Forall_forall. intros w Hw.
  apply List.filter_In in Hw as [Hw _].
  apply (proj1 (List.Forall_forall _ _) (split_on_no_sep Path.slash s) w Hw).
Qed.

Lemma rule_of_alias_map_key (key x alias : str) :
  rule_of ALIAS_MAP key x = Some alias ->
  key = "referenceguide.adoc" \/ key = "referenceguide/referenceguide.adoc".
Proof.
  unfold rule_of, ALIAS_MAP.
  destruct (_ !! key) as [rules|] eqn:E; [|discriminate].
  rewrite !lookup_insert_Some, lookup_empty in E. intros _.
  destruct E as [[<- _]|[_ [[<- _]|[_ E]]]]; [left | right | discriminate E]; reflexivity.
Qed.

Lemma rule_of_basename (x : str) :
  rule_of ALIAS_MAP "referenceguide.adoc" x = reference_rules !! x.
Proof. reflexivity. Qed.

(** X10: with [ALIAS_MAP] as it is, an alias applies exactly when the
    file name of the master is [referenceguide.adoc], in whatever
    directory, and the page is one of the two shared pages; under the
    other books no page is ever replaced by an alias. *)
Theorem alias_applies_iff (master_key x alias : str) :
  resolve_alias master_key x = (alias, Some alias)
  <-> Path.name master_key = "referenceguide.adoc"
      /\ ((x = book_path /\ alias = book_alias) \/ (x = intro_path /\ alias = intro_alias)).
Proof.
  split.
  - intros H. split; [|apply (resolve_alias_cases _ _ _ H)].
    unfold resolve_alias in H. rewrite resolve_alias_in_eq in H.
    destruct (rule_of ALIAS_MAP master_key x) as [a|] eqn:E1.
    + destruct (rule_of_alias_map_key _ _ _ E1) as [->| ->]; reflexivity.
    + destruct (rule_of ALIAS_MAP (Path.name master_key) x) as [a|] eqn:E2;
        [|discriminate H].
      destruct (rule_of_alias_map_key _ _ _ E2) as [K|K]; [exact K|].
      exfalso. apply (name_has_no_slash master_key). rewrite K.
      unfold Path.slash. cbn. tauto.
  - intros [Hn Hx]. unfold resolve_alias. rewrite resolve_alias_in_eq, Hn, rule_of_basename.
    assert (R : reference_rules !! x = Some alias)
      by (destruct Hx as [[-> ->]|[-> ->]]; reflexivity).
    rewrite R.
    destruct (rule_of ALIAS_MAP master_key x) as [a|] eqn:E1; [|reflexivity].
    apply rule_of_alias_map in E1. rewrite R in E1. injection E1 as <-. reflexivity.
Qed.

(** ** The stub leads back to the shared page *)

Lemma is_prefix_app_same (r a b : path) :
  Path.is_prefix (r ++ a) (r ++ b) = Path.is_prefix a b.
Proof.
  induction r as [|x r IH]; [reflexivity|].
  cbn [app Path.is_prefix]. rewrite str_eqb_refl. exact IH.
Qed.

Lemma in_parents_app_same (r a b : path) :
  Path.in_parents (r ++ a) (r ++ b) = Path.in_parents a b.
Proof.
  unfold Path.in_parents. rewrite is_prefix_app_same. f_equal. f_equal.
  apply bool_decide_ext. split; [apply app_inv_head | intros ->; reflexivity].
Qed.

Lemma PARTIALS_DIR_eq :
  PARTIALS_DIR = CWD ++ ["src" : str; "modules" : str; "ROOT" : str; "partials" : str].
Proof.
  unfold PARTIALS_DIR, MODULE_ROOT, SRC_DIR, Path.joinpath.
  change (Path.is_absolute "src") with false.
  change (Path.is_absolute "modules/ROOT") with false.
  change (Path.is_absolute "partials") with false.
  change (Path.parts "src") with ["src" : str].
  change (Path.parts "modules/ROOT") with ["modules" : str; "ROOT" : str].
  change (Path.parts "partials") with ["partials" : str].
  cbv iota. rewrite <- !app_assoc. reflexivity.
Qed.

Lemma resolve_fold_back (acc A B : path) (c : str) :
  Forall plain A -> plain c ->
  fold_left Path.resolve_step (A ++ c :: Path.dotdot :: B) acc
  = fold_left Path.resolve_step B (acc ++ A).
Proof.
  intros FA Hc. rewrite fold_left_app, (resolve_fold_plain acc A FA).
  cbn [fold_left]. f_equal.
  unfold Path.resolve_step at 2. apply str_eqb_neq in Hc. rewrite Hc.
  unfold Path.resolve_step. rewrite str_eqb_refl. apply removelast_last.
Qed.

(** From a directory beside it, [../c1/c2] is the page [c1/c2]. *)
Lemma resolve_sibling (d c1 c2 : str) :
  Forall plain CWD -> plain d -> plain c1 -> plain c2 ->
  Path.resolve ((PAGES_DIR ++ [d]) ++ [Path.dotdot; c1; c2]) = PAGES_DIR ++ [c1; c2].
Proof.
  intros FC Hd H1 H2. unfold Path.resolve. rewrite <- app_assoc. cbn [app].
  rewrite resolve_fold_back; [|rewrite PAGES_DIR_eq; apply Forall_app; split;
                               [exact FC | plain_components] | exact Hd].
  rewrite resolve_fold_plain; [reflexivity|]. repeat constructor; assumption.
Qed.

Lemma page_not_in_partials (c1 c2 : str) :
  Path.in_parents PARTIALS_DIR (PAGES_DIR ++ [c1; c2]) = false.
Proof.
  rewrite PARTIALS_DIR_eq, PAGES_DIR_eq, <- app_assoc, in_parents_app_same.
  reflexivity.
Qed.

Lemma exists_other_file (fs : gmap path str) (alias x : str) (p : path) :
  p <> stub_path alias ->
  exists_file (create_alias_file alias x fs) p = exists_file fs p.
Proof.
  intros Hne. unfold exists_file, create_alias_file.
  rewrite lookup_insert_ne; [reflexivity|]. intros E. apply Hne. symmetry. exact E.
Qed.

Lemma stub_lines (fs : gmap path str) (master_key x alias : str) :
  resolve_alias master_key x = (alias, Some alias) ->
  read_text_lines (create_alias_file alias x fs) (stub_path alias)
  = [ ":page-alias: " ++ x; "include::" ++ "../" ++ x ++ "[]" ].
Proof.
  intros H. unfold read_text_lines, create_alias_file, stub_path.
  rewrite lookup_insert_eq. apply (alias_content_lines _ _ _ H).
Qed.

(** X11: the stub leads back to the shared page.  Read as a page, the
    stub of a rule has one include, and that include resolves, from
    the directory of the stub, to the shared page of the rule (it is
    dropped when that page does not exist); the stub has no heading, so
    its title is [Untitled]. *)
Theorem stub_includes_shared_page (fs : gmap path str) (master_key x alias : str) :
  Forall plain CWD ->
  resolve_alias master_key x = (alias, Some alias) ->
  let fs' := create_alias_file alias x fs in
  extract_include_files fs' (stub_path alias)
  = (if exists_file fs (Path.joinpath PAGES_DIR x)
     then [Path.joinpath PAGES_DIR x] else [])
  /\ get_title_and_anchor fs' (stub_path alias) false = (UNTITLED, []).
Proof.
  intros FC H fs'. unfold extract_include_files, get_title_and_anchor, fs'.
  rewrite (stub_lines fs _ _ _ H).
  destruct (resolve_alias_cases _ _ _ H) as [[-> ->]|[-> ->]].
  - split; [|reflexivity].
    cbn [flat_map]. unfold include_of_line.
    change (search_include (":page-alias: " ++ book_path)) with (@None str).
    change (search_include ("include::" ++ "../" ++ book_path ++ "[]"))
      with (Some ("../perfdmf/book.adoc" : str)).
    cbv beta iota zeta.
    change (Py.strip "../perfdmf/book.adoc") with ("../perfdmf/book.adoc" : str).
    unfold stub_path. rewrite !joinpath_relative by reflexivity.
    change (Path.parts book_alias) with ["referenceguide" : str; "taudb-alias.adoc" : str].
    change (Path.parts book_path) with ["perfdmf" : str; "book.adoc" : str].
    change (Path.parts "../perfdmf/book.adoc")
      with [Path.dotdot; "perfdmf" : str; "book.adoc" : str].
    rewrite parent_app, resolve_sibling by (try exact FC; unfold plain; discriminate).
    rewrite page_not_in_partials.
    replace (exists_file (create_alias_file book_alias book_path fs)
               (PAGES_DIR ++ ["perfdmf" : str; "book.adoc" : str]))
      with (exists_file fs (PAGES_DIR ++ ["perfdmf" : str; "book.adoc" : str])).
    + destruct (exists_file fs _); reflexivity.
    + symmetry. apply exists_other_file. unfold stub_path.
      rewrite joinpath_relative by reflexivity. intros E.
      apply app_inv_head in E. discriminate E.
  - split; [|reflexivity].
    cbn [flat_map]. unfold include_of_line.
    change (search_include (":page-alias: " ++ intro_path)) with (@None str).
    change (search_include ("include::" ++ "../" ++ intro_path ++ "[]"))
      with (Some ("../newguide/introduction.adoc" : str)).
    cbv beta iota zeta.
    change (Py.strip "../newguide/introduction.adoc")
      with ("../newguide/introduction.adoc" : str).
    unfold stub_path. rewrite !joinpath_relative by reflexivity.
    change (Path.parts intro_alias)
      with ["referenceguide" : str; "installation-alias.adoc" : str].
    change (Path.parts intro_path) with ["newguide" : str; "introduction.adoc" : str].
    change (Path.parts "../newguide/introduction.adoc")
      with [Path.dotdot; "newguide" : str; "introduction.adoc" : str].
    rewrite parent_app, resolve_sibling by (try exact FC; unfold plain; discriminate).
    rewrite page_not_in_partials.
    replace (exists_file (create_alias_file intro_alias intro_path fs)
               (PAGES_DIR ++ ["newguide" : str; "introduction.adoc" : str]))
      with (exists_file fs (PAGES_DIR ++ ["newguide" : str; "introduction.adoc" : str])).
    + destruct (exists_file fs _); reflexivity.
    + symmetry. apply exists_other_file. unfold stub_path.
      rewrite joinpath_relative by reflexivity. intros E.
      apply app_inv_head in E. discriminate E.
Qed.

(** ** What a traversal touches *)

Lemma for_each_inv_in {A : Type} (I : state -> Prop)
  (body : A -> state -> option state) (l : list A) :
  (forall x st st', In x l -> I st -> body x st = Some st' -> I st') ->
  forall st st', I st -> for_each body l st = Some st' -> I st'.
Proof.
  induction l as [|x l IH]; intros Hbody st st' Hst H.
  - injection H as <-. exact Hst.
  - cbn [for_each] in H. destruct (body x st) as [st1|] eqn:E; [|discriminate].
    apply (IH (fun y s s' Hy => Hbody y s s' (or_intror Hy)) st1); [|exact H].
    apply (Hbody x st); [left; reflexivity | exact Hst | exact E].
Qed.

Lemma files_kept_refl (s : state) : files_kept s s.
Proof. split; [reflexivity | reflexivity]. Qed.

Lemma files_kept_trans (a b c : state) :
  files_kept a b -> files_kept b c -> files_kept a c.
Proof.
  intros [F1 D1] [F2 D2]. split.
  - intros p Hp. rewrite (F2 p Hp). apply F1, Hp.
  - intros p Hp. apply D2, D1, Hp.
Qed.

Lemma files_kept_same (s s' : state) : files s' = files s -> files_kept s s'.
Proof. intros E. unfold files_kept. rewrite E. split; reflexivity. Qed.

Lemma visited_grew_refl (master_key : str) (s : state) : visited_grew master_key s s.
Proof. split; [reflexivity | auto]. Qed.

Lemma visited_grew_trans (master_key : str) (a b c : state) :
  dom (files b) ⊆ dom (files c) ->
  visited_grew master_key a b -> visited_grew master_key b c ->
  visited_grew master_key a c.
Proof.
  intros D [V1 G1] [V2 G2]. split.
  - intros k Hk. apply V2, V1, Hk.
  - intros k Hk. destruct (G2 k Hk) as [Hb|Hn]; [|right; exact Hn].
    destruct (G1 k Hb) as [Ha|[Hm Hd]]; [left; exact Ha | right].
    split; [exact Hm | apply D, Hd].
Qed.

Lemma apply_alias_files_kept (master_key x final : str) (created : option str)
  (st : state) :
  resolve_alias master_key x = (final, created) ->
  files_kept st (apply_alias created x st).
Proof.
  intros Hal.
  destruct (resolve_alias_shape _ _ _ _ Hal) as [->|[-> _]]; [|apply files_kept_refl].
  cbn [apply_alias]. unfold files_kept. proj_state. unfold create_alias_file. split.
  - intros p Hp. apply lookup_insert_ne. intros E. apply Hp. subst p.
    apply (stub_in_stub_paths _ _ _ Hal).
  - rewrite dom_insert. apply union_subseteq_r.
Qed.

Lemma process_page_footprint (fuel : nat) :
  forall (file_path : path) (master_key : str) (lvl : Z) (st st' : state),
    process_page fuel file_path master_key lvl st = Some st' ->
    files_kept st st' /\ visited_grew master_key st st'.
Proof.
  induction fuel as [|fuel IH]; intros file_path master_key lvl st st' H; [discriminate|].
  cbn [process_page] in H.
  destruct (Path.relative_to file_path PAGES_DIR) as [xref|].
  2: { injection H as <-.
       split; [apply files_kept_same; reflexivity | exact (visited_grew_refl _ st)]. }
  destruct (resolve_alias master_key (Path.to_str xref)) as [final created] eqn:Hal.
  pose proof (apply_alias_files_kept _ _ _ _ (log_call (file_path, master_key) st) Hal) as K1.
  pose proof (apply_alias_visited created (Path.to_str xref)
                (log_call (file_path, master_key) st)) as V1.
  set (st1 := apply_alias created (Path.to_str xref)
                (log_call (file_path, master_key) st)) in *.
  assert (K : files_kept st st1) by exact K1.
  assert (G : visited_grew master_key st st1).
  { split; [rewrite V1; reflexivity | intros k Hk; left; rewrite V1 in Hk; exact Hk]. }
  clearbody st1. clear K1 V1.
  destruct (get_title_and_anchor (files st1) file_path false) as [t a].
  destruct (problematic_title t). { injection H as <-. split; [exact K | exact G]. }
  proj_state.
  destruct (is_aggregator_page (files st1) file_path && _).
  { injection H as <-. split; [exact K | exact G]. }
  destruct (is_aggregator_page (files st1) file_path).
  2: { injection H as <-. split; [exact K | exact G]. }
  apply (for_each_inv_in (fun s => files_kept st1 s /\ visited_grew master_key st1 s)) in H.
  - destruct H as [K' G']. split; [apply (files_kept_trans _ _ _ K K')|].
    apply (visited_grew_trans master_key st st1 st'); [apply (proj2 K') | exact G | exact G'].
  - intros inc s s' Hinc [Ks Gs] Hv. unfold visit_once in Hv.
    destruct (bool_decide _). { injection Hv as <-. auto. }
    apply IH in Hv. destruct Hv as [K2 G2]. proj_state.
    assert (K2' : files_kept s s') by exact K2.
    split; [apply (files_kept_trans _ _ _ Ks K2')|].
    apply (visited_grew_trans master_key st1 s s'); [apply (proj2 K2') | exact Gs |].
    destruct G2 as [V2 G2]. proj_state. split.
    + intros k Hk. apply V2, elem_of_union_r, Hk.
    + intros k Hk. destruct (G2 k Hk) as [Hold|Hnew]; [|right; exact Hnew].
      apply elem_of_union in Hold as [Hold|Hold]; [|left; exact Hold].
      apply elem_of_singleton in Hold. subst k. right. split; [reflexivity|].
      cbn [fst]. apply (proj2 K2'), (proj2 Ks). apply (included_exists _ _ _ Hinc).
  - split; [apply files_kept_same; reflexivity|].
    split; [reflexivity | intros k Hk; left; exact Hk].
Qed.

(** X13: a call of [process_page] changes and removes no file: only
    the stubs are written.  It takes nothing out of the visited set,
    and what it adds are pairs of an existing file with the master it
    was called for only. *)
Theorem process_page_touches (fuel : nat) (file_path : path) (master_key : str)
  (lvl : Z) (st st' : state) :
  process_page fuel file_path master_key lvl st = Some st' ->
  (forall p : path, p ∉ stub_paths -> files st' !! p = files st !! p)
  /\ dom (files st) ⊆ dom (files st')
  /\ visited st ⊆ visited st'
  /\ forall key : path * str,
       key ∈ visited st' ->
       key ∈ visited st \/ (snd key = master_key /\ fst key ∈ dom (files st')).
Proof.
  intros H. destruct (process_page_footprint _ _ _ _ _ _ H) as [[F D] [V G]].
  repeat split; assumption.
Qed.

Lemma process_master_files_kept (fuel : nat) (master : str) (st st' : state) :
  process_master fuel master st = Some st' -> files_kept st st'.
Proof.
  unfold process_master. intros H.
  destruct (negb (exists_file (files st) (Path.joinpath PAGES_DIR master))).
  { injection H as <-. apply files_kept_refl. }
  destruct (get_title_and_anchor (files st) _ true) as [bt ba].
  destruct (for_each _ _ _) as [st1|] eqn:E; [|discriminate].
  apply (for_each_rel files_kept) in E.
  - apply (files_kept_trans _ _ _ E).
    destruct (negb _); injection H as <-; apply files_kept_same; reflexivity.
  - apply files_kept_refl.
  - apply files_kept_trans.
  - intros inc s s' _ Hv. unfold visit_once in Hv.
    destruct (bool_decide _); [injection Hv as <-; apply files_kept_refl|].
    apply process_page_footprint in Hv. destruct Hv as [Hv _]. exact Hv.
Qed.

(** X12: a run of [main] changes and removes no source file: apart
    from the two stubs and the navigation file, every path holds at the
    end what it held at the start; the navigation file holds the header
    and the lines of [nav_lines]. *)
Theorem main_touches (fuel : nat) (fs : gmap path str) (st : state) :
  main fuel fs = Some st ->
  (forall p : path,
      p ∉ stub_paths -> p <> DEST_NAV_FILE -> files st !! p = fs !! p)
  /\ dom fs ⊆ dom (files st)
  /\ files st !! DEST_NAV_FILE = Some (final_content (nav_lines st)).
Proof.
  unfold main. intros H.
  destruct (for_each _ _ _) as [st1|] eqn:E; [|discriminate].
  injection H as <-. proj_state.
  apply (for_each_rel files_kept) in E.
  - destruct E as [F D]. proj_state. split; [|split].
    + intros p Hp Hd. rewrite lookup_insert_ne by (intros E; apply Hd; symmetry; exact E).
      apply F, Hp.
    + rewrite dom_insert. intros p Hp. apply elem_of_union_r, D, Hp.
    + apply lookup_insert_eq.
  - apply files_kept_refl.
  - apply files_kept_trans.
  - intros m s s' _. apply process_master_files_kept.
Qed.

(** ** Pages outside the pages directory *)

(** X15: a file that is not below the pages directory is left at once:
    [process_page] adds no line, writes no stub and visits nothing,
    whatever the file holds and whatever the master. *)
Theorem page_outside_pages_dir (fuel : nat) (file_path : path) (master_key : str)
  (lvl : Z) (st : state) :
  (forall rel : path, file_path <> PAGES_DIR ++ rel) ->
  process_page (S fuel) file_path master_key lvl st
  = Some (mkState (nav_lines st) (visited st) (files st)
                  (calls st ++ [(file_path, master_key)])).
Proof.
  intros H. cbn [process_page].
  destruct (Path.relative_to file_path PAGES_DIR) as [rel|] eqn:E; [|reflexivity].
  exfalso. apply (H rel), relative_to_Some, E.
Qed.

(** ** Pages that are no aggregators *)

Lemma sections_fold_entries (final t a : str) (lvl : Z)
  (sections : list (Z * str * str)) (nav : list str) :
  Forall (fun s => fst (fst s) = 3%Z) sections ->
  fold_left (section_step final t a lvl) sections nav
  = nav ++ map render (section_entries final t a lvl sections).
Proof.
  intros F. unfold section_entries.
  destruct (Z.leb_spec (lvl + 1) MAX_NAV_DEPTH) as [Hle|Hgt].
  - revert nav. induction F as [|[[level sa] stt] sections Hs _ IH]; intros nav.
    + symmetry. apply app_nil_r.
    + cbn [fst] in Hs. subst level. cbn [fold_left List.filter]. rewrite IH.
      unfold section_step, repeats_page. cbn [fst snd].
      destruct (_ || _); cbn [negb map]; [reflexivity|].
      destruct (Z.leb_spec (lvl + (3 - 2)) MAX_NAV_DEPTH) as [_|Hgt]; [|lia].
      unfold add_entry. rewrite <- app_assoc. reflexivity.
  - rewrite sections_dropped by (try exact F; lia). symmetry. apply app_nil_r.
Qed.

Lemma apply_alias_log (created : option str) (x : str) (key : path * str)
  (st : state) :
  apply_alias created x (log_call key st) = log_call key (apply_alias created x st).
Proof. destruct created; reflexivity. Qed.

(** X14: a page that is no aggregator, with a title that is accepted,
    gets its own entry and after it one entry at the next depth for
    every section heading that repeats neither the anchor nor, letter
    case apart, the title of the page; at depth 4 it gets its own entry
    only.  All these entries have the page, or its alias, as target.
    Nothing is visited. *)
Theorem leaf_page_entries (fuel : nat) (file_path xref : path)
  (master_key final page_title page_anchor : str) (created : option str)
  (lvl : Z) (st : state) :
  let fs' := files (apply_alias created (Path.to_str xref) st) in
  let sections :=
    section_entries final page_title page_anchor lvl
                    (extract_section_headings (files st) file_path) in
  Path.relative_to file_path PAGES_DIR = Some xref ->
  resolve_alias master_key (Path.to_str xref) = (final, created) ->
  get_title_and_anchor (files st) file_path false = (page_title, page_anchor) ->
  problematic_title page_title = false ->
  is_aggregator_page fs' file_path = false ->
  process_page (S fuel) file_path master_key lvl st
  = Some (mkState
            (nav_lines st
             ++ map render (entry_of lvl final page_title page_anchor :: sections))
            (visited st) fs' (calls st ++ [(file_path, master_key)]))
  /\ Forall (fun e => target e = final
                      /\ depth e = Z.max 1 (lvl + 1)
                      /\ anchor e <> page_anchor
                      /\ Py.lower (Py.strip (title e)) <> Py.lower (Py.strip page_title))
            sections.
Proof.
  intros fs' sections Hrel Hal Ht Hp Hagg. split.
  - cbn [process_page]. rewrite Hrel, Hal, apply_alias_log. proj_state. fold fs'.
    assert (L : read_text_lines fs' file_path = read_text_lines (files st) file_path).
    { apply (title_after_alias _ _ _ _ _ _ Hrel Hal). }
    assert (T : get_title_and_anchor fs' file_path false = (page_title, page_anchor)).
    { rewrite <- Ht. unfold get_title_and_anchor. rewrite L. reflexivity. }
    rewrite T, Hp. proj_state. rewrite Hagg. cbn [andb].
    unfold set_nav. proj_state.
    rewrite apply_alias_nav, apply_alias_visited, apply_alias_calls.
    rewrite sections_fold_entries by apply scan_sections_level.
    unfold add_entry. rewrite <- app_assoc.
    unfold sections, extract_section_headings. rewrite L. reflexivity.
  - unfold sections, section_entries.
    destruct (Z.leb_spec (lvl + 1) MAX_NAV_DEPTH) as [Hle|_]; [|constructor].
    apply List.Forall_forall. intros e He.
    apply List.in_map_iff in He as (s & <- & Hs).
    apply List.filter_In in Hs as [_ Hs].
    unfold repeats_page in Hs. apply negb_true_iff, orb_false_iff in Hs as [H1 H2].
    apply str_eqb_neq in H1, H2.
    cbn [target depth anchor title entry_of]. unfold clamp_level.
    repeat split; [lia | exact H1 | exact H2].
Qed.

(** ** Books *)

Lemma process_master_missing (fuel : nat) (master : str) (st : state) :
  files st !! Path.joinpath PAGES_DIR master = None ->
  process_master fuel master st = Some st.
Proof.
  intros H. unfold process_master, exists_file.
  rewrite bool_decide_eq_false_2; [reflexivity|].
  rewrite H. intros [v Hv]. discriminate Hv.
Qed.

(** X16: when none of the master files exists, [main] ends at once,
    with any fuel: no line of navigation, nothing visited, and the
    navigation file written holds the two header lines only. *)
Theorem main_without_masters (fuel : nat) (fs : gmap path str) :
  Forall (fun master => fs !! Path.joinpath PAGES_DIR master = None) MASTER_FILES ->
  main fuel fs
  = Some (mkState [] ∅
            (<[ DEST_NAV_FILE :=
                  ("// WARNING: This file is generated. DO NOT EDIT DIRECTLY."
                   ++ nl ++ nl : str) ]> fs) []).
Proof.
  unfold MASTER_FILES. intros F.
  inversion F as [|? ? H1 F1]; subst. inversion F1 as [|? ? H2 F2]; subst.
  inversion F2 as [|? ? H3 _]; subst.
  unfold main, MASTER_FILES. cbn [for_each].
  rewrite !process_master_missing by assumption. reflexivity.
Qed.

(** X17: what [main] adds for a master file that exists: first the line
    of the book, with the title and the anchor of the file in
    document-title mode, then lines of entries of depth 1 to 4 for its
    pages, then an empty line unless the master is the last of
    [MASTER_FILES]. *)
Theorem master_block (fuel : nat) (master : str) (st st' : state) :
  process_master fuel master st = Some st' ->
  exists_file (files st) (Path.joinpath PAGES_DIR master) = true ->
  exists pages : list str,
    nav_lines st'
    = nav_lines st
      ++ [book_line (Path.to_str (Path.parts master))
                    (fst (get_title_and_anchor (files st)
                            (Path.joinpath PAGES_DIR master) true))
                    (snd (get_title_and_anchor (files st)
                            (Path.joinpath PAGES_DIR master) true))]
      ++ pages
      ++ (if Py.str_eqb master last_master then [] else [[]])
    /\ Forall entry_line pages.
Proof.
  unfold process_master. intros H Hex. rewrite Hex in H. cbn [negb] in H.
  destruct (get_title_and_anchor (files st) _ true) as [bt ba]. cbn [fst snd].
  destruct (for_each _ _ _) as [st1|] eqn:E; [|discriminate].
  apply (for_each_rel
           (fun s s' => nav_extends entry_line (nav_lines s) (nav_lines s'))) in E.
  - proj_state. destruct E as (pages & E & F). exists pages. split; [|exact F].
    destruct (Py.str_eqb master last_master); cbn [negb] in H; injection H as <-;
      proj_state; rewrite E, <- !app_assoc; [rewrite app_nil_r|]; reflexivity.
  - intros s. apply nav_extends_refl.
  - intros s1 s2 s3. apply nav_extends_trans.
  - intros inc s s' _ Hv. unfold visit_once in Hv.
    destruct (bool_decide _); [injection Hv as <-; apply nav_extends_refl|].
    apply process_page_extends in Hv. exact Hv.
Qed.

Lemma doc_scan_untitled (lines : list str) :
  Forall (fun l => no_marker l /\ no_doc_title l) lines ->
  title_and_anchor_of_lines lines true = (UNTITLED, []).
Proof.
  intros F. destruct lines as [|l lines]; [reflexivity|].
  unfold title_and_anchor_of_lines.
  rewrite <- (app_nil_r (l :: lines)). rewrite doc_scan_quiet by exact F. reflexivity.
Qed.

(** X6: a book is not skipped for want of a title: a master file that
    exists, with no document title line and no anchor line, is listed
    with the title [Untitled] and without anchor, where a page without
    title is left out. *)
Theorem untitled_book_is_listed (fuel : nat) (master : str) (st st' : state) :
  process_master fuel master st = Some st' ->
  exists_file (files st) (Path.joinpath PAGES_DIR master) = true ->
  Forall (fun l => no_marker l /\ no_doc_title l)
         (read_text_lines (files st) (Path.joinpath PAGES_DIR master)) ->
  get_title_and_anchor (files st) (Path.joinpath PAGES_DIR master) true = (UNTITLED, [])
  /\ exists rest : list str,
       nav_lines st'
       = nav_lines st
         ++ ("* xref:" ++ Path.to_str (Path.parts master) ++ "[Untitled]") :: rest.
Proof.
  intros H Hex F.
  assert (T : get_title_and_anchor (files st) (Path.joinpath PAGES_DIR master) true
              = (UNTITLED, [])).
  { unfold get_title_and_anchor. apply doc_scan_untitled, F. }
  split; [exact T|].
  unfold process_master in H. rewrite Hex, T in H. cbn [negb] in H.
  destruct (for_each _ _ _) as [st1|] eqn:E; [|discriminate].
  apply (for_each_rel
           (fun s s' => nav_extends entry_line (nav_lines s) (nav_lines s'))) in E.
  - proj_state. destruct E as (pages & E & _).
    destruct (negb _); injection H as <-; proj_state; rewrite E, <- !app_assoc;
      eexists; reflexivity.
  - intros s. apply nav_extends_refl.
  - intros s1 s2 s3. apply nav_extends_trans.
  - intros inc s s' _ Hv. unfold visit_once in Hv.
    destruct (bool_decide _); [injection Hv as <-; apply nav_extends_refl|].
    apply process_page_extends in Hv. exact Hv.
Qed.

(** ** The navigation file *)

Lemma splitlines_from_line (l rest cur : str) :
  one_line l ->
  Py.splitlines_from cur (l ++ nl ++ rest) = (rev cur ++ l) :: Py.splitlines_from [] rest.
Proof.
  intros F. revert cur. induction F as [|c l Hc _ IH]; intros cur.
  - rewrite app_nil_r. destruct rest; reflexivity.
  - cbn [app Py.splitlines_from]. rewrite Hc, IH. cbn [rev].
    rewrite <- app_assoc. reflexivity.
Qed.

Lemma splitlines_join (l : str) (lines : list str) :
  Forall one_line (l :: lines) ->
  Py.splitlines (Py.join nl (l :: lines) ++ nl) = l :: lines.
Proof.
  unfold Py.splitlines. revert l. induction lines as [|q lines IH]; intros l F.
  - inversion F as [|? ? Hl _]; subst. cbn [Py.join].
    rewrite <- (app_nil_r nl) at 1. rewrite (splitlines_from_line l [] [] Hl). reflexivity.
  - inversion F as [|? ? Hl F']; subst.
    change (Py.join nl (l :: q :: lines)) with (l ++ nl ++ Py.join nl (q :: lines)).
    rewrite <- !app_assoc. rewrite (splitlines_from_line l _ [] Hl).
    rewrite (IH q F'). reflexivity.
Qed.

(** X18: the navigation file reads back as it was meant: when no line
    of [nav_lines] holds a line break character, the lines of the file
    that [main] wrote are the two header lines and then the lines of
    [nav_lines], one for one. *)
Theorem nav_file_reads_back (fuel : nat) (fs : gmap path str) (st : state) :
  main fuel fs = Some st ->
  Forall one_line (nav_lines st) ->
  read_text_lines (files st) DEST_NAV_FILE = header ++ nav_lines st.
Proof.
  unfold main. intros H F.
  destruct (for_each _ _ _) as [st1|]; [|discriminate].
  injection H as <-. proj_state.
  unfold read_text_lines. rewrite lookup_insert_eq. unfold final_content, header.
  cbn [app]. apply splitlines_join.
  constructor; [|constructor; [constructor | exact F]].
  unfold one_line. repeat constructor.
Qed.

End Generator.

(** * Concrete runs *)

(** C3, counterexample: a file of an anchor line and a body line has no
    heading line, and its anchor is not empty. *)
Lemma untitled_anchor_not_empty :
  let file_path : path := ["work" : str; "notes.adoc" : str] in
  let fs : gmap path str := {[ file_path := "[[intro]]
Some text
" : str ]} in
  Forall no_heading (read_text_lines fs file_path)
  /\ get_title_and_anchor fs file_path false = (UNTITLED, "intro" : str)
  /\ get_title_and_anchor fs file_path false <> (UNTITLED, []).
Proof.
  cbv zeta. split; [|split].
  - vm_compute. repeat constructor.
  - vm_compute. reflexivity.
  - vm_compute. discriminate.
Qed.

(** C3, witness: a file with body text only. *)
Lemma untitled_without_headings_witness :
  let file_path : path := PAGES_DIR ["work" : str] ++ ["guide" : str; "notes.adoc" : str] in
  let st := mkState [] ∅ ({[ file_path := "Some text
more text
" : str ]} : gmap path str) [] in
  get_title_and_anchor (files st) file_path false = (UNTITLED, [])
  /\ (exists st',
         process_page ["work" : str] 1 file_path "guide/guide.adoc" 2 st = Some st'
         /\ nav_lines st' = [] /\ visited st' = ∅
         /\ calls st' = [(file_path, "guide/guide.adoc" : str)])
  /\ alias_child_step (files st) book_alias 2 [] file_path = [].
Proof.
  cbv zeta.
  destruct (untitled_without_headings ["work" : str] 0
              (PAGES_DIR ["work" : str] ++ ["guide" : str; "notes.adoc" : str])
              "guide/guide.adoc" book_alias 2
              (mkState [] ∅
                 {[ PAGES_DIR ["work" : str] ++ ["guide" : str; "notes.adoc" : str]
                      := "Some text
more text
" : str ]} []) [])
    as (Htitle & (st' & Hrun & Hnav & Hvis & Hcalls) & Hchild).
  - vm_compute. repeat constructor.
  - split; [exact Htitle|]. split; [|exact Hchild].
    exists st'. repeat split; assumption.
Defined.

(** C4, counterexample: the book file starts with its title, no anchor
    line anywhere, and the anchor returned is derived from the title. *)
Lemma doc_title_anchor_is_derived :
  let master_path : path := ["work" : str; "usersguide.adoc" : str] in
  let fs : gmap path str := {[ master_path := "= User Guide
include::intro.adoc[]
" : str ]} in
  Forall no_marker (read_text_lines fs master_path)
  /\ get_title_and_anchor fs master_path true = ("User Guide" : str, "user-guide" : str)
  /\ snd (get_title_and_anchor fs master_path true) <> [].
Proof.
  cbv zeta. split; [|split].
  - vm_compute. repeat constructor.
  - vm_compute. reflexivity.
  - vm_compute. discriminate.
Qed.

(** C4, witness: the same title line, alone and after an anchor line. *)
Lemma doc_title_anchor_witness :
  let plain_file : path := ["work" : str; "plain.adoc" : str] in
  let marked_file : path := ["work" : str; "marked.adoc" : str] in
  let fs : gmap path str :=
    {[ plain_file := "= User Guide
" : str;
       marked_file := "[[ug]]

= User Guide
" : str ]} in
  get_title_and_anchor fs plain_file true = ("User Guide" : str, "user-guide" : str)
  /\ get_title_and_anchor fs marked_file true = ("User Guide" : str, "ug" : str).
Proof.
  cbv zeta.
  apply (doc_title_anchor _ _ _ [] [[]] [] "[[ug]]" "= User Guide").
  - constructor.
  - reflexivity.
  - reflexivity.
  - repeat constructor.
  - vm_compute. reflexivity.
  - vm_compute. reflexivity.
Defined.

(** C9, witness: an anchor line, a body line, then the heading. *)
Lemma pending_anchor_carried_witness :
  let file_path : path := ["work" : str; "page.adoc" : str] in
  let fs : gmap path str := {[ file_path := "[[intro]]
Some text
== The Title
" : str ]} in
  get_title_and_anchor fs file_path false = ("The Title" : str, "intro" : str).
Proof.
  cbv zeta.
  apply (pending_anchor_carried _ _ [] ["Some text" : str] [] "[[intro]]" "== The Title"
           "The Title" 2).
  - vm_compute. reflexivity.
  - constructor.
  - reflexivity.
  - vm_compute. discriminate.
  - repeat constructor.
  - reflexivity.
  - lia.
Defined.

(** C2, witness: the rule for [perfdmf/book.adoc] under the reference
    guide. *)
Lemma alias_stub_content_witness :
  let cwd : path := ["work" : str] in
  let fs' := create_alias_file cwd book_alias book_path ∅ in
  read_text_lines fs' (stub_path cwd book_alias)
  = [ ":page-alias: perfdmf/book.adoc" : str; "include::../perfdmf/book.adoc[]" : str ]
  /\ create_alias_file cwd book_alias book_path fs' = fs'.
Proof.
  cbv zeta.
  destruct (alias_stub_content ["work" : str] ∅ "referenceguide.adoc" book_path book_alias)
    as (Hlines & _ & _ & _ & Htwice).
  - vm_compute. reflexivity.
  - split; [|exact Htwice]. etransitivity; [exact Hlines|]. vm_compute. reflexivity.
Defined.

(** C10, witness: the shared book page without a heading, under the
    reference guide. *)
Lemma stub_written_for_skipped_page_witness :
  let cwd : path := ["work" : str] in
  let file_path : path := PAGES_DIR cwd ++ ["perfdmf" : str; "book.adoc" : str] in
  let fs : gmap path str := {[ file_path := "Only text.
" : str ]} in
  process_page cwd 1 file_path "referenceguide/referenceguide.adoc" 2 (mkState [] ∅ fs [])
  = Some (mkState [] ∅ (create_alias_file cwd book_alias book_path fs)
                  [(file_path, "referenceguide/referenceguide.adoc" : str)])
  /\ create_alias_file cwd book_alias book_path fs !! stub_path cwd book_alias
     = Some (":page-alias: perfdmf/book.adoc
include::../perfdmf/book.adoc[]
" : str).
Proof.
  cbv zeta.
  destruct (stub_written_for_skipped_page ["work" : str] 0
              (PAGES_DIR ["work" : str] ++ ["perfdmf" : str; "book.adoc" : str])
              ["perfdmf" : str; "book.adoc" : str]
              "referenceguide/referenceguide.adoc" book_alias UNTITLED [] 2
              (mkState [] ∅ {[ PAGES_DIR ["work" : str] ++ ["perfdmf" : str; "book.adoc" : str]
                                := "Only text.
" : str ]} []))
    as [Hrun Hstub].
  - vm_compute. reflexivity.
  - vm_compute. reflexivity.
  - vm_compute. reflexivity.
  - reflexivity.
  - split; [exact Hrun|]. etransitivity; [exact Hstub|]. vm_compute. reflexivity.
Defined.

(** C1, counterexample: the shared book page includes two chapters, one
    of them without a heading.  Under the reference guide the page gets
    one chapter entry, not two; and at depth 4 the chapter entry is at
    depth 4, not 5. *)
Lemma aliased_children_not_one_per_include :
  let cwd : path := ["work" : str] in
  let book : path := PAGES_DIR cwd ++ ["perfdmf" : str; "book.adoc" : str] in
  let fs : gmap path str :=
    {[ book := "== TAUdb
include::ch1.adoc[]
include::ch2.adoc[]
" : str;
       PAGES_DIR cwd ++ ["perfdmf" : str; "ch1.adoc" : str] := "== Chapter One
" : str;
       PAGES_DIR cwd ++ ["perfdmf" : str; "ch2.adoc" : str] := "Only text.
" : str ]} in
  let fs' := create_alias_file cwd book_alias book_path fs in
  let master_key : str := "referenceguide/referenceguide.adoc" in
  resolve_alias master_key book_path = (book_alias, Some book_alias)
  /\ is_aggregator_page cwd fs' book = true
  /\ List.length (extract_include_files cwd fs' book) = 2
  /\ nav_lines <$> process_page cwd 1 book master_key 2 (mkState [] ∅ fs [])
     = Some [ "** xref:referenceguide/taudb-alias.adoc#taudb[TAUdb]" : str;
              "*** xref:referenceguide/taudb-alias.adoc#chapter-one[Chapter One]" : str ]
  /\ nav_lines <$> process_page cwd 1 book master_key 4 (mkState [] ∅ fs [])
     = Some [ "**** xref:referenceguide/taudb-alias.adoc#taudb[TAUdb]" : str;
              "**** xref:referenceguide/taudb-alias.adoc#chapter-one[Chapter One]" : str ].
Proof. cbv zeta. repeat split; vm_compute; reflexivity. Qed.

(** C1, witness: the same page. *)
Lemma aliased_aggregator_children_witness :
  let cwd : path := ["work" : str] in
  let book : path := PAGES_DIR cwd ++ ["perfdmf" : str; "book.adoc" : str] in
  let fs : gmap path str :=
    {[ book := "== TAUdb
include::ch1.adoc[]
include::ch2.adoc[]
" : str;
       PAGES_DIR cwd ++ ["perfdmf" : str; "ch1.adoc" : str] := "== Chapter One
" : str;
       PAGES_DIR cwd ++ ["perfdmf" : str; "ch2.adoc" : str] := "Only text.
" : str ]} in
  nav_lines <$> process_page cwd 1 book "referenceguide/referenceguide.adoc" 2
                             (mkState [] ∅ fs [])
  = Some (map render
            [ mkNavEntry 2 book_alias "taudb" "TAUdb";
              mkNavEntry 3 book_alias "chapter-one" "Chapter One" ]).
Proof.
  cbv zeta.
  destruct (aliased_aggregator_children ["work" : str] 0
              (PAGES_DIR ["work" : str] ++ ["perfdmf" : str; "book.adoc" : str])
              ["perfdmf" : str; "book.adoc" : str]
              "referenceguide/referenceguide.adoc" book_alias "TAUdb" "taudb" 2
              (mkState [] ∅
                 {[ PAGES_DIR ["work" : str] ++ ["perfdmf" : str; "book.adoc" : str]
                      := "== TAUdb
include::ch1.adoc[]
include::ch2.adoc[]
" : str;
                    PAGES_DIR ["work" : str] ++ ["perfdmf" : str; "ch1.adoc" : str]
                      := "== Chapter One
" : str;
                    PAGES_DIR ["work" : str] ++ ["perfdmf" : str; "ch2.adoc" : str]
                      := "Only text.
" : str ]} []))
    as [Hrun _].
  - vm_compute. reflexivity.
  - vm_compute. reflexivity.
  - vm_compute. reflexivity.
  - reflexivity.
  - vm_compute. reflexivity.
  - etransitivity; [exact (f_equal (fmap nav_lines) Hrun)|]. vm_compute. reflexivity.
Defined.

(** C6, witness: a book whose two pages include each other. *)
Lemma each_pair_expanded_once_witness :
  let cwd : path := ["work" : str] in
  let guide : path := PAGES_DIR cwd ++ ["usersguide" : str] in
  let fs : gmap path str :=
    {[ guide ++ ["usersguide.adoc" : str] := "= Users Guide
include::a.adoc[]
" : str;
       guide ++ ["a.adoc" : str] := "== A
include::b.adoc[]
" : str;
       guide ++ ["b.adoc" : str] := "== B
include::a.adoc[]
" : str ]} in
  (exists st : state,
      main cwd 5 fs = Some st
      /\ NoDup (calls st)
      /\ forall fuel', 5 <= fuel' -> main cwd fuel' fs = Some st)
  /\ nav_lines <$> main cwd 5 fs
     = Some [ "* xref:usersguide/usersguide.adoc#users-guide[Users Guide]" : str;
              "** xref:usersguide/a.adoc#a[A]" : str;
              "*** xref:usersguide/b.adoc#b[B]" : str;
              [] ]
  /\ calls <$> main cwd 5 fs
     = Some [ (guide ++ ["a.adoc" : str], "usersguide/usersguide.adoc" : str);
              (guide ++ ["b.adoc" : str], "usersguide/usersguide.adoc" : str) ].
Proof.
  cbv zeta. split; [|split].
  - apply (each_pair_expanded_once ["work" : str] 5). vm_compute. lia.
  - vm_compute. reflexivity.
  - vm_compute. reflexivity.
Defined.

(** C5, witness: a book with one page that has two sections; at depth
    4 the sections of that page are left out. *)
Lemma nav_depth_bounds_witness :
  let cwd : path := ["work" : str] in
  let guide : path := PAGES_DIR cwd ++ ["usersguide" : str] in
  let page : path := guide ++ ["page.adoc" : str] in
  let fs : gmap path str :=
    {[ guide ++ ["usersguide.adoc" : str] := "= Users Guide
include::page.adoc[]
" : str;
       page := "== Page
=== Part One
=== Part Two
" : str ]} in
  nav_lines <$> main cwd 4 fs
  = Some [ "* xref:usersguide/usersguide.adoc#users-guide[Users Guide]" : str;
           "** xref:usersguide/page.adoc#page[Page]" : str;
           "*** xref:usersguide/page.adoc#part-one[Part One]" : str;
           "*** xref:usersguide/page.adoc#part-two[Part Two]" : str;
           [] ]
  /\ (exists st : state, main cwd 4 fs = Some st /\ Forall nav_ok (nav_lines st))
  /\ List.length (extract_section_headings fs page) = 2
  /\ fold_left (section_step "usersguide/page.adoc" "Page" "page" 4)
               (extract_section_headings fs page) [] = [].
Proof.
  cbv zeta. split; [vm_compute; reflexivity|].
  destruct (main_returns ["work" : str] 4
              {[ PAGES_DIR ["work" : str] ++ ["usersguide" : str] ++ ["usersguide.adoc" : str]
                   := "= Users Guide
include::page.adoc[]
" : str;
                 PAGES_DIR ["work" : str] ++ ["usersguide" : str] ++ ["page.adoc" : str]
                   := "== Page
=== Part One
=== Part Two
" : str ]}) as [st Hst]; [vm_compute; lia|].
  destruct (nav_depth_bounds ["work" : str] 4 1 _ 
              {[ PAGES_DIR ["work" : str] ++ ["usersguide" : str] ++ ["usersguide.adoc" : str]
                   := "= Users Guide
include::page.adoc[]
" : str;
                 PAGES_DIR ["work" : str] ++ ["usersguide" : str] ++ ["page.adoc" : str]
                   := "== Page
=== Part One
=== Part Two
" : str ]}
              st (mkState [] ∅ ∅ []) (mkState [] ∅ ∅ [([], [])])
              (PAGES_DIR ["work" : str] ++ ["usersguide" : str] ++ ["page.adoc" : str])
              [] [] "usersguide/page.adoc" "Page" "page" 4 2 [] Hst)
    as (Hnav & _ & _ & Hdrop).
  - vm_compute. reflexivity.
  - vm_compute. reflexivity.
  - split; [|split].
    + exists st. split; [exact Hst | exact Hnav].
    + vm_compute. reflexivity.
    + exact Hdrop.
Defined.

(** * Concrete runs for the further properties *)

(** X5, witness: a document title, a body line, then the first heading
    of level 2. *)
Lemma page_title_is_first_heading_witness :
  let file_path : path := ["work" : str; "page.adoc" : str] in
  let fs : gmap path str := {[ file_path := "= Book
Some text
== Getting Started
=== Later
" : str ]} in
  get_title_and_anchor fs file_path false
  = ("Getting Started" : str, "getting-started" : str).
Proof.
  cbv zeta.
  apply (page_title_is_first_heading _ _ ["= Book" : str; "Some text" : str]
           ["=== Later" : str] "== Getting Started" "Getting Started" 2).
  - vm_compute. reflexivity.
  - repeat constructor.
  - repeat constructor.
  - reflexivity.
  - lia.
Defined.

(** X8, witness: the same heading after an anchor line, once with an
    empty line in between and once with a body line. *)
Lemma section_anchor_scope_witness :
  let kept_file : path := ["work" : str; "kept.adoc" : str] in
  let dropped_file : path := ["work" : str; "dropped.adoc" : str] in
  let fs : gmap path str :=
    {[ kept_file := "== Page
[[setup]]

=== Setting Up
" : str;
       dropped_file := "== Page
[[setup]]
Some text
=== Setting Up
" : str ]} in
  extract_section_headings fs kept_file = [(3%Z, "setup" : str, "Setting Up" : str)]
  /\ extract_section_headings fs dropped_file
     = [(3%Z, "setting-up" : str, "Setting Up" : str)].
Proof.
  cbv zeta.
  apply (section_anchor_scope _ _ _ ["== Page" : str] [[]] [] "[[setup]]" "Some text"
           "=== Setting Up" "Setting Up").
  - reflexivity.
  - vm_compute. discriminate.
  - repeat constructor.
  - reflexivity.
  - reflexivity.
  - reflexivity.
  - reflexivity.
  - vm_compute. intros H. repeat (apply elem_of_cons in H as [H|H]; [discriminate H|]).
    inversion H.
  - vm_compute. reflexivity.
  - vm_compute. reflexivity.
Defined.

(** X9, witness: a page of a heading and one include. *)
Lemma aggregator_has_no_sections_witness :
  let cwd : path := ["work" : str] in
  let page : path := PAGES_DIR cwd ++ ["guide" : str; "toc.adoc" : str] in
  let fs : gmap path str :=
    {[ page := "== Contents
include::one.adoc[]
" : str;
       PAGES_DIR cwd ++ ["guide" : str; "one.adoc" : str] := "== One
" : str ]} in
  extract_include_files cwd fs page <> []
  /\ extract_section_headings fs page = [].
Proof.
  cbv zeta. apply (aggregator_has_no_sections ["work" : str]). vm_compute. reflexivity.
Defined.

(** X15, witness: a file beside the pages directory. *)
Lemma page_outside_pages_dir_witness :
  let cwd : path := ["work" : str] in
  let file_path : path := ["work" : str; "README.adoc" : str] in
  let st := mkState [] ∅ ({[ file_path := "== Read Me
" : str ]} : gmap path str) [] in
  process_page cwd 1 file_path "usersguide/usersguide.adoc" 2 st
  = Some (mkState [] ∅ (files st) [(file_path, "usersguide/usersguide.adoc" : str)]).
Proof.
  cbv zeta.
  apply (page_outside_pages_dir ["work" : str] 0 ["work" : str; "README.adoc" : str]
           "usersguide/usersguide.adoc" 2).
  intros rel E. vm_compute in E. discriminate E.
Defined.

(** X16, witness: an empty file system. *)
Lemma main_without_masters_witness :
  main ["work" : str] 0 ∅
  = Some (mkState [] ∅
            {[ DEST_NAV_FILE ["work" : str] :=
                 "// WARNING: This file is generated. DO NOT EDIT DIRECTLY.

" : str ]} []).
Proof.
  apply (main_without_masters ["work" : str] 0 ∅).
  repeat constructor.
Defined.

(** X11, witness: the stub of [perfdmf/book.adoc], the page being
    there. *)
Lemma stub_includes_shared_page_witness :
  let cwd : path := ["work" : str] in
  let book : path := PAGES_DIR cwd ++ ["perfdmf" : str; "book.adoc" : str] in
  let fs : gmap path str := {[ book := "== TAUdb
" : str ]} in
  let fs' := create_alias_file cwd book_alias book_path fs in
  extract_include_files cwd fs' (stub_path cwd book_alias) = [book]
  /\ get_title_and_anchor fs' (stub_path cwd book_alias) false = (UNTITLED, []).
Proof.
  cbv zeta.
  destruct (stub_includes_shared_page ["work" : str]
              {[ PAGES_DIR ["work" : str] ++ ["perfdmf" : str; "book.adoc" : str]
                   := "== TAUdb
" : str ]} "referenceguide.adoc" book_path book_alias) as [Hinc Htitle].
  - repeat constructor. unfold plain. discriminate.
  - vm_compute. reflexivity.
  - split; [|exact Htitle]. etransitivity; [exact Hinc|]. vm_compute. reflexivity.
Defined.

(** X14, witness: a page with its own title repeated as a section, an
    ignored section and one more section. *)
Lemma leaf_page_entries_witness :
  let cwd : path := ["work" : str] in
  let page : path := PAGES_DIR cwd ++ ["guide" : str; "overview.adoc" : str] in
  let fs : gmap path str := {[ page := "== Overview
=== overview
=== See Also
=== Next Steps
" : str ]} in
  process_page cwd 1 page "guide/guide.adoc" 2 (mkState [] ∅ fs [])
  = Some (mkState
            [ "** xref:guide/overview.adoc#overview[Overview]" : str;
              "*** xref:guide/overview.adoc#next-steps[Next Steps]" : str ]
            ∅ fs [(page, "guide/guide.adoc" : str)]).
Proof.
  cbv zeta.
  destruct (leaf_page_entries ["work" : str] 0
              (PAGES_DIR ["work" : str] ++ ["guide" : str; "overview.adoc" : str])
              ["guide" : str; "overview.adoc" : str]
              "guide/guide.adoc" "guide/overview.adoc" "Overview" "overview" None 2
              (mkState [] ∅
                 {[ PAGES_DIR ["work" : str] ++ ["guide" : str; "overview.adoc" : str]
                      := "== Overview
=== overview
=== See Also
=== Next Steps
" : str ]} [])) as [Hrun _].
  - vm_compute. reflexivity.
  - vm_compute. reflexivity.
  - vm_compute. reflexivity.
  - reflexivity.
  - vm_compute. reflexivity.
  - etransitivity; [exact Hrun|]. vm_compute. reflexivity.
Defined.

(** The run [E] says ran out of fuel returns when computed. *)
Ltac refute_none E :=
  match type of E with
  | ?run = None =>
      let N := fresh "N" in
      assert (N : (if run then true else false) = true) by (vm_compute; reflexivity);
      rewrite E in N; discriminate N
  end.

(** X13, witness: an aggregator page with one chapter, under the users
    guide. *)
Lemma process_page_touches_witness :
  let cwd : path := ["work" : str] in
  let guide : path := PAGES_DIR cwd ++ ["usersguide" : str] in
  let fs : gmap path str :=
    {[ guide ++ ["part.adoc" : str] := "== Part
include::chapter.adoc[]
" : str;
       guide ++ ["chapter.adoc" : str] := "== Chapter
" : str ]} in
  exists st' : state,
    process_page cwd 2 (guide ++ ["part.adoc" : str]) "usersguide/usersguide.adoc" 2
                 (mkState [] ∅ fs []) = Some st'
    /\ files st' !! (guide ++ ["chapter.adoc" : str]) = fs !! (guide ++ ["chapter.adoc" : str])
    /\ forall key : path * str,
         key ∈ visited st' ->
         key ∈ (∅ : gset (path * str))
         \/ (snd key = ("usersguide/usersguide.adoc" : str) /\ fst key ∈ dom (files st')).
Proof.
  cbv zeta.
  destruct (process_page ["work" : str] 2
              ((PAGES_DIR ["work" : str] ++ ["usersguide" : str]) ++ ["part.adoc" : str])
              "usersguide/usersguide.adoc" 2
              (mkState [] ∅
                 {[ (PAGES_DIR ["work" : str] ++ ["usersguide" : str]) ++ ["part.adoc" : str]
                      := "== Part
include::chapter.adoc[]
" : str;
                    (PAGES_DIR ["work" : str] ++ ["usersguide" : str])
                      ++ ["chapter.adoc" : str] := "== Chapter
" : str ]} [])) as [st'|] eqn:E; [|refute_none E].
  exists st'. split; [reflexivity|].
  destruct (process_page_touches _ _ _ _ _ _ _ E) as (F & _ & _ & G).
  split; [|exact G].
  apply F. intros H.
  apply elem_of_union in H as [H|H]; apply elem_of_singleton in H;
    vm_compute in H; discriminate H.
Defined.

(** X6, witness: the users guide without a document title, with one
    page. *)
Lemma untitled_book_is_listed_witness :
  let cwd : path := ["work" : str] in
  let guide : path := PAGES_DIR cwd ++ ["usersguide" : str] in
  let fs : gmap path str :=
    {[ guide ++ ["usersguide.adoc" : str] := "include::page.adoc[]
" : str;
       guide ++ ["page.adoc" : str] := "== Page
" : str ]} in
  nav_lines <$> process_master cwd 2 "usersguide/usersguide.adoc" (mkState [] ∅ fs [])
  = Some [ "* xref:usersguide/usersguide.adoc[Untitled]" : str;
           "** xref:usersguide/page.adoc#page[Page]" : str;
           [] ]
  /\ exists st' : state,
       process_master cwd 2 "usersguide/usersguide.adoc" (mkState [] ∅ fs []) = Some st'
       /\ exists rest : list str,
            nav_lines st' = ("* xref:usersguide/usersguide.adoc[Untitled]" : str) :: rest.
Proof.
  cbv zeta. split; [vm_compute; reflexivity|].
  destruct (process_master ["work" : str] 2 "usersguide/usersguide.adoc"
              (mkState [] ∅
                 {[ (PAGES_DIR ["work" : str] ++ ["usersguide" : str])
                      ++ ["usersguide.adoc" : str] := "include::page.adoc[]
" : str;
                    (PAGES_DIR ["work" : str] ++ ["usersguide" : str])
                      ++ ["page.adoc" : str] := "== Page
" : str ]} [])) as [st'|] eqn:E; [|refute_none E].
  exists st'. split; [reflexivity|].
  destruct (untitled_book_is_listed _ _ _ _ _ E) as (_ & rest & Hrest).
  - vm_compute. reflexivity.
  - vm_compute. repeat constructor.
  - exists rest. exact Hrest.
Defined.

(** X17, witness: the users guide with one page. *)
Lemma master_block_witness :
  let cwd : path := ["work" : str] in
  let guide : path := PAGES_DIR cwd ++ ["usersguide" : str] in
  let fs : gmap path str :=
    {[ guide ++ ["usersguide.adoc" : str] := "= Users Guide
include::page.adoc[]
" : str;
       guide ++ ["page.adoc" : str] := "== Page
" : str ]} in
  exists (st' : state) (pages : list str),
    process_master cwd 2 "usersguide/usersguide.adoc" (mkState [] ∅ fs []) = Some st'
    /\ nav_lines st'
       = ("* xref:usersguide/usersguide.adoc#users-guide[Users Guide]" : str)
           :: pages ++ [[]]
    /\ Forall entry_line pages.
Proof.
  cbv zeta.
  destruct (process_master ["work" : str] 2 "usersguide/usersguide.adoc"
              (mkState [] ∅
                 {[ (PAGES_DIR ["work" : str] ++ ["usersguide" : str])
                      ++ ["usersguide.adoc" : str] := "= Users Guide
include::page.adoc[]
" : str;
                    (PAGES_DIR ["work" : str] ++ ["usersguide" : str])
                      ++ ["page.adoc" : str] := "== Page
" : str ]} [])) as [st'|] eqn:E; [|refute_none E].
  destruct (master_block _ _ _ _ _ E) as (pages & Hnav & Hpages).
  - vm_compute. reflexivity.
  - exists st', pages. split; [reflexivity|]. split; [|exact Hpages].
    etransitivity; [exact Hnav|]. vm_compute. reflexivity.
Defined.

(** X12, witness: the page holds after the run what it held before. *)
Lemma main_touches_witness :
  let cwd : path := ["work" : str] in
  let guide : path := PAGES_DIR cwd ++ ["usersguide" : str] in
  let fs : gmap path str :=
    {[ guide ++ ["usersguide.adoc" : str] := "= Users Guide
include::page.adoc[]
" : str;
       guide ++ ["page.adoc" : str] := "== Page
" : str ]} in
  exists st : state,
    main cwd 4 fs = Some st
    /\ files st !! (guide ++ ["page.adoc" : str]) = Some ("== Page
" : str)
    /\ files st !! DEST_NAV_FILE cwd = Some (final_content (nav_lines st)).
Proof.
  cbv zeta.
  destruct (main_returns ["work" : str] 4
              {[ (PAGES_DIR ["work" : str] ++ ["usersguide" : str])
                   ++ ["usersguide.adoc" : str] := "= Users Guide
include::page.adoc[]
" : str;
                 (PAGES_DIR ["work" : str] ++ ["usersguide" : str])
                   ++ ["page.adoc" : str] := "== Page
" : str ]}) as [st E]; [vm_compute; lia|].
  exists st. split; [exact E|].
  destruct (main_touches _ _ _ _ E) as (F & _ & D).
  split; [|exact D].
  etransitivity; [apply F|].
  - intros H. apply elem_of_union in H as [H|H]; apply elem_of_singleton in H;
      vm_compute in H; discriminate H.
  - intros H. vm_compute in H. discriminate H.
  - vm_compute. reflexivity.
Defined.

(** X18, witness: the navigation file of the same run. *)
Lemma nav_file_reads_back_witness :
  let cwd : path := ["work" : str] in
  let guide : path := PAGES_DIR cwd ++ ["usersguide" : str] in
  let fs : gmap path str :=
    {[ guide ++ ["usersguide.adoc" : str] := "= Users Guide
include::page.adoc[]
" : str;
       guide ++ ["page.adoc" : str] := "== Page
" : str ]} in
  exists st : state,
    main cwd 4 fs = Some st
    /\ read_text_lines (files st) (DEST_NAV_FILE cwd)
       = [ "// WARNING: This file is generated. DO NOT EDIT DIRECTLY." : str;
           [];
           "* xref:usersguide/usersguide.adoc#users-guide[Users Guide]" : str;
           "** xref:usersguide/page.adoc#page[Page]" : str;
           [] ].
Proof.
  cbv zeta.
  destruct (main_returns ["work" : str] 4
              {[ (PAGES_DIR ["work" : str] ++ ["usersguide" : str])
                   ++ ["usersguide.adoc" : str] := "= Users Guide
include::page.adoc[]
" : str;
                 (PAGES_DIR ["work" : str] ++ ["usersguide" : str])
                   ++ ["page.adoc" : str] := "== Page
" : str ]}) as [st E]; [vm_compute; lia|].
  exists st. split; [exact E|].
  assert (N : Some (nav_lines st)
              = Some [ "* xref:usersguide/usersguide.adoc#users-guide[Users Guide]" : str;
                       "** xref:usersguide/page.adoc#page[Page]" : str; [] ]).
  { change (Some (nav_lines st)) with (nav_lines <$> Some st). rewrite <- E.
    vm_compute. reflexivity. }
  injection N as N.
  rewrite (nav_file_reads_back _ _ _ _ E).
  - rewrite N. reflexivity.
  - rewrite N. unfold one_line. repeat constructor.
Defined.
